(** * salt.utils.stringutils: whitelist/blacklist and include/exclude matching

    A shallow embedding of [expr_match], [check_whitelist_blacklist] and
    [check_include_exclude] from [salt/utils/stringutils.py], together with
    the facts the specification states about them.

    The three functions are pure control flow around two modules of
    Python's standard library, [fnmatch] and [re].  The embedding keeps the
    same split:

    - [Py]: the Python values the functions receive, exceptions, and the
      monads in which the functions run (errors, and errors plus the
      [log] sink);
    - [PyLib]: the interface of the two library modules, as the functions
      use it;
    - [StringUtils]: the three functions, written over any [PyLib];
    - [RefLib]: an executable model of [fnmatch] and of a fragment of the
      [re] syntax, used to evaluate the functions on concrete inputs;
    - [Helpers]: the other helpers of the file that can be modelled
      without floating point or the operating system: [human_to_bytes],
      [is_quoted], [dequote], [to_none], [contains_whitespace],
      [print_cli], [to_str], [to_bytes] and [to_unicode]. *)

From Stdlib Require Import Bool List String Ascii ZArith Lia.
From Stdlib Require Import DecimalString DecimalN DecimalPos.
From ExtLib Require Import Structures.Monad Structures.MonadExc.
Import ListNotations.
Import MonadNotation.
Local Open Scope string_scope.
Local Open Scope monad_scope.

(** ** Python values, exceptions and effects *)

Module Py.

(** The values that reach the functions as [expr], [whitelist] and
    [blacklist]: [None], booleans, integers, strings and lists. *)
#[warnings="-register-all"]
Inductive pyval : Type :=
| PNone
| PBool (b : bool)
| PInt (z : Z)
| PStr (s : string)
| PList (l : list pyval).

(** Exceptions that occur in the modelled code.  [ReError] is [re.error];
    [UnboundLocalError] is what reading a local that was never assigned
    raises; [OtherError] is an exception of any other class, by the name
    of the class ([OverflowError], [RecursionError], ...). *)
Inductive exn : Type :=
| TypeError
| ReError
| UnboundLocalError
| OtherError (name : string).

Definition exn_eqb (a b : exn) : bool :=
  match a, b with
  | TypeError, TypeError | ReError, ReError
  | UnboundLocalError, UnboundLocalError => true
  | OtherError n, OtherError m => String.eqb n m
  | _, _ => false
  end.

(** Outcome of a call: a returned value or a propagated exception. *)
Inductive result (A : Type) : Type :=
| Ok (a : A)
| Raise (e : exn).
Arguments Ok {A} a.
Arguments Raise {A} e.

#[export] Instance Monad_result : Monad result :=
  {| ret := fun _ a => Ok a;
     bind := fun _ _ m k => match m with Ok a => k a | Raise e => Raise e end |}.

#[export] Instance Exc_result : MonadExc exn result :=
  {| raise := fun _ e => Raise e;
     catch := fun _ m h => match m with Ok a => Ok a | Raise e => h e end |}.

(** A record handed to the module-level logger [log]. *)
Inductive level : Type := ERROR.
Record log_record : Type := LogRecord
  { lvl : level; msg : string; args : list pyval }.

(** Code that may raise and may write to the logger.  The records written
    so far survive an exception. *)
Definition M (A : Type) : Type :=
  list log_record -> result A * list log_record.

#[export] Instance Monad_M : Monad M :=
  {| ret := fun _ a l => (Ok a, l);
     bind := fun _ _ m k l =>
       match m l with
       | (Ok a, l') => k a l'
       | (Raise e, l') => (Raise e, l')
       end |}.

#[export] Instance Exc_M : MonadExc exn M :=
  {| raise := fun _ e l => (Raise e, l);
     catch := fun _ m h l =>
       match m l with
       | (Ok a, l') => (Ok a, l')
       | (Raise e, l') => h e l'
       end |}.

Definition lift {A : Type} (r : result A) : M A := fun l => (r, l).

(** [log.error(msg, arg)] *)
Definition log_error (m : string) (arg : pyval) : M unit :=
  fun l => (Ok tt, (l ++ [LogRecord ERROR m [arg]])%list).

(** [try: body / except E: handler]: only [E] is caught. *)
Definition try_except {m : Type -> Type} {Mm : Monad m} {Em : MonadExc exn m}
    {A : Type} (body : m A) (E : exn) (handler : m A) : m A :=
  catch body (fun e => if exn_eqb e E then handler else raise e).

(** Truth value of an object, as the [if] statement tests it. *)
Definition truthy (v : pyval) : bool :=
  match v with
  | PNone => false
  | PBool b => b
  | PInt z => negb (Z.eqb z 0)
  | PStr s => negb (String.eqb s "")
  | PList l => match l with [] => false | _ :: _ => true end
  end.

Definition is_none (v : pyval) : bool :=
  match v with PNone => true | _ => false end.

(** [hasattr(v, '__iter__')].  Lists have the attribute; [None], booleans
    and integers do not; [str] has it on Python 3 only. *)
Definition hasattr_iter (py3 : bool) (v : pyval) : bool :=
  match v with
  | PList _ => true
  | PStr _ => py3
  | PNone | PBool _ | PInt _ => false
  end.

Fixpoint chars (s : string) : list pyval :=
  match s with
  | EmptyString => []
  | String c s' => PStr (String c EmptyString) :: chars s'
  end.

(** The items a [for] statement draws from [v]; [TypeError] for an object
    that is not iterable. *)
Definition iter (v : pyval) : result (list pyval) :=
  match v with
  | PList l => Ok l
  | PStr s => Ok (chars s)
  | PNone | PBool _ | PInt _ => Raise TypeError
  end.

(** [line == expr] for a [str] on the left. *)
Definition str_eq (line : string) (expr : pyval) : bool :=
  match expr with
  | PStr e => String.eqb line e
  | _ => false
  end.

(** [s[n:]] *)
Fixpoint slice_from (n : nat) (s : string) : string :=
  match n, s with
  | O, _ => s
  | S _, EmptyString => EmptyString
  | S n', String _ s' => slice_from n' s'
  end.

(** Truth value of an optional [str] argument ([None] or a string). *)
Definition truthy_str (p : option string) : bool :=
  match p with
  | None => false
  | Some s => negb (String.eqb s "")
  end.

End Py.
Import Py.

(** ** The library modules [fnmatch] and [re]

    [re.match(p, s)] and [re.search(p, s)] compile [p] and then run the
    compiled pattern on [s]; compiling fails with [re.error], and only
    compiling fails.  [fnmatch.fnmatch(name, pat)] answers a boolean for
    two strings.  [PY3] is [six.PY3]. *)

Class PyLib : Type :=
  { PY3 : bool;
    fnmatch_fnmatch : string -> string -> bool;
    re_pattern : Type;
    re_compile : string -> option re_pattern;
    pattern_match : re_pattern -> string -> bool;
    pattern_search : re_pattern -> string -> bool;
    (** [re.match('E@', s)] succeeds exactly on the strings that start
        with the two characters [E@]. *)
    re_match_marker : forall s,
      option_map (fun p => pattern_match p s) (re_compile "E@")
      = Some (String.prefix "E@" s) }.

(** The two modules as the interpreter has them.  Compiling a pattern
    returns the compiled pattern or raises: [re.error] for a pattern that
    is not a regular expression, and whatever else [re] raises
    ([OverflowError] for a repeat count that is too large, for one).  A
    [PyLib] is the case of a library that raises nothing but [re.error]. *)

Class PyRun : Type :=
  { run_PY3 : bool;
    run_fnmatch : string -> string -> bool;
    run_pattern : Type;
    run_compile : string -> result run_pattern;
    run_match : run_pattern -> string -> bool;
    run_search : run_pattern -> string -> bool;
    run_marker : forall s,
      match run_compile "E@" with
      | Ok p => Ok (run_match p s)
      | Raise e => Raise e
      end = Ok (String.prefix "E@" s) }.

Definition compile_of (L : PyLib) (pat : string) : result re_pattern :=
  match re_compile pat with
  | Some p => Ok p
  | None => Raise ReError
  end.

Lemma compile_of_marker (L : PyLib) (s : string) :
  match compile_of L "E@" with
  | Ok p => Ok (pattern_match p s)
  | Raise e => Raise e
  end = Ok (String.prefix "E@" s).
Proof.
  unfold compile_of. pose proof (re_match_marker s) as H.
  destruct (re_compile "E@") as [p |]; cbn in H; [| discriminate].
  now injection H as ->.
Qed.

#[export] Instance run_of (L : PyLib) : PyRun :=
  {| run_PY3 := PY3;
     run_fnmatch := fnmatch_fnmatch;
     run_pattern := re_pattern;
     run_compile := compile_of L;
     run_match := pattern_match;
     run_search := pattern_search;
     run_marker := compile_of_marker L |}.

Coercion run_of : PyLib >-> PyRun.

(** ** The functions of [salt/utils/stringutils.py] *)

Section StringUtils.

Context {L : PyRun}.

(** [re.match(pat, s)], as a truth value. *)
Definition re_match (pat s : string) : result bool :=
  match run_compile pat with
  | Ok p => Ok (run_match p s)
  | Raise e => Raise e
  end.

(** [re.search(pat, s)], as a truth value. *)
Definition re_search (pat s : string) : result bool :=
  match run_compile pat with
  | Ok p => Ok (run_search p s)
  | Raise e => Raise e
  end.

(** [fnmatch.fnmatch(name, pat)]: a [pat] that is not a string is refused
    with [TypeError]. *)
Definition py_fnmatch (name : string) (pat : pyval) : result bool :=
  match pat with
  | PStr p => Ok (run_fnmatch name p)
  | _ => Raise TypeError
  end.

(** [r'\A{0}\Z'.format(expr)] followed by [re.match(..., line)].  The
    call is reached with a string [expr] only: [fnmatch.fnmatch] has
    raised for anything else. *)
Definition match_anchored (line : string) (expr : pyval) : result bool :=
  match expr with
  | PStr e => re_match ("\A" ++ e ++ "\Z") line
  | _ => Raise TypeError
  end.

(** [[
def expr_match(line, expr):
    if line == expr:
        return True
    if fnmatch.fnmatch(line, expr):
        return True
    try:
        if re.match(r'\A{0}\Z'.format(expr), line):
            return True
    except re.error:
        pass
    return False
]] *)
Definition expr_match (line : string) (expr : pyval) : result bool :=
  if str_eq line expr then ret true
  else
    g <- py_fnmatch line expr ;;
    if g : bool then ret true
    else
      r <- try_except
             (m <- match_anchored line expr ;;
              if m : bool then ret (Some true) else ret None)
             ReError
             (ret None) ;;
      match r : option bool with
      | Some b => ret b
      | None => ret false
      end.

(** [[
for expr in items:
    if expr_match(value, expr):
        return r
]]
    [Some r] when the loop leaves the function with [return r], [None]
    when it runs to its end. *)
Fixpoint for_expr_match (value : string) (items : list pyval) (r : bool)
  : result (option bool) :=
  match items with
  | [] => ret None
  | expr :: rest =>
      b <- expr_match value expr ;;
      if b : bool then ret (Some r) else for_expr_match value rest r
  end.

(** [[
def check_whitelist_blacklist(value, whitelist=None, blacklist=None):
    if blacklist is not None:
        if not hasattr(blacklist, '__iter__'):
            blacklist = [blacklist]
        try:
            for expr in blacklist:
                if expr_match(value, expr):
                    return False
        except TypeError:
            log.error('Non-iterable blacklist %s', blacklist)

    if whitelist:
        if not hasattr(whitelist, '__iter__'):
            whitelist = [whitelist]
        try:
            for expr in whitelist:
                if expr_match(value, expr):
                    return True
        except TypeError:
            log.error('Non-iterable whitelist %s', whitelist)
    else:
        return True

    return False
]] *)
Definition check_whitelist_blacklist
    (value : string) (whitelist blacklist : pyval) : M bool :=
  r1 <- (if negb (is_none blacklist) then
           let blacklist :=
             if negb (hasattr_iter run_PY3 blacklist) then PList [blacklist]
             else blacklist in
           try_except
             (lift (items <- iter blacklist ;;
                    for_expr_match value items false))
             TypeError
             (log_error "Non-iterable blacklist %s" blacklist ;; ret None)
         else ret None) ;;
  match r1 : option bool with
  | Some b => ret b
  | None =>
      r2 <- (if truthy whitelist then
               let whitelist :=
                 if negb (hasattr_iter run_PY3 whitelist) then PList [whitelist]
                 else whitelist in
               try_except
                 (lift (items <- iter whitelist ;;
                        for_expr_match value items true))
                 TypeError
                 (log_error "Non-iterable whitelist %s" whitelist ;;
                  ret None)
             else ret (Some true)) ;;
      match r2 : option bool with
      | Some b => ret b
      | None => ret false
      end
  end.

(** The shape shared by the blacklist block and the whitelist block: the
    scalar is wrapped, the loop runs under [try], and [TypeError] is
    logged. *)
Definition guarded_loop
    (value : string) (set : pyval) (r : bool) (message : string)
  : M (option bool) :=
  let set := if negb (hasattr_iter run_PY3 set) then PList [set] else set in
  try_except
    (lift (items <- iter set ;; for_expr_match value items r))
    TypeError
    (log_error message set ;; ret None).

(** Reading a local variable that may not have been assigned. *)
Definition read_local {A : Type} (v : option A) : result A :=
  match v with
  | Some a => ret a
  | None => raise UnboundLocalError
  end.

(** [[
def check_include_exclude(path_str, include_pat=None, exclude_pat=None):
    ret = True  # -- default true
    if include_pat:
        if re.match('E@', include_pat):
            retchk_include = True if re.search(
                include_pat[2:], path_str) else False
        else:
            retchk_include = True if fnmatch.fnmatch(
                path_str, include_pat) else False

    if exclude_pat:
        if re.match('E@', exclude_pat):
            retchk_exclude = False if re.search(
                exclude_pat[2:], path_str) else True
        else:
            retchk_exclude = False if fnmatch.fnmatch(
                path_str, exclude_pat) else True

    if include_pat and not exclude_pat:
        ret = retchk_include
    elif exclude_pat and not include_pat:
        ret = retchk_exclude
    elif include_pat and exclude_pat:
        ret = retchk_include and retchk_exclude
    else:
        ret = True

    return ret
]] *)
Definition check_include_exclude
    (path_str : string) (include_pat exclude_pat : option string)
  : result bool :=
  retchk_include <-
    match include_pat with
    | Some pat =>
        if truthy_str include_pat then
          e <- re_match "E@" pat ;;
          if e : bool then
            s <- re_search (slice_from 2 pat) path_str ;;
            ret (Some (if s : bool then true else false))
          else
            ret (Some (if run_fnmatch path_str pat then true else false))
        else ret None
    | None => ret None
    end ;;
  retchk_exclude <-
    match exclude_pat with
    | Some pat =>
        if truthy_str exclude_pat then
          e <- re_match "E@" pat ;;
          if e : bool then
            s <- re_search (slice_from 2 pat) path_str ;;
            ret (Some (if s : bool then false else true))
          else
            ret (Some (if run_fnmatch path_str pat then false else true))
        else ret None
    | None => ret None
    end ;;
  if truthy_str include_pat && negb (truthy_str exclude_pat) then
    read_local retchk_include
  else if truthy_str exclude_pat && negb (truthy_str include_pat) then
    read_local retchk_exclude
  else if truthy_str include_pat && truthy_str exclude_pat then
    i <- read_local retchk_include ;;
    if i : bool then read_local retchk_exclude else ret i
  else
    ret true.

(** *** The functions as the specification words them *)

(** [matches(candidate, pattern)]: exact equality, then the shell
    pattern, then the pattern as a regular expression between [\A] and
    [\Z]; a pattern that does not compile does not match. *)
Definition matches (candidate pattern : string) : bool :=
  String.eqb candidate pattern
  || run_fnmatch candidate pattern
  || match run_compile ("\A" ++ pattern ++ "\Z") with
     | Ok p => run_match p candidate
     | Raise _ => false
     end.

(** An optional pattern set, as the object handed to the function. *)
Definition pattern_set (o : option (list string)) : pyval :=
  match o with
  | None => PNone
  | Some l => PList (map PStr l)
  end.


(** The two-mode matcher of [checkIncludeExclude]: after the marker [E@]
    a regular expression that is searched for, otherwise a shell
    pattern. *)
Definition two_mode_match (candidate pat : string) : result bool :=
  if String.prefix "E@" pat then re_search (slice_from 2 pat) candidate
  else Ok (run_fnmatch candidate pat).

(** A pattern counts as supplied when it is a non-empty string. *)
Definition supplied (p : option string) : option string :=
  match p with
  | Some s => if String.eqb s "" then None else Some s
  | None => None
  end.

(** The combination table of [checkIncludeExclude]. *)
Definition include_exclude_policy
    (candidate : string) (include_pat exclude_pat : option string)
  : result bool :=
  match supplied include_pat, supplied exclude_pat with
  | None, None => Ok true
  | Some i, None => two_mode_match candidate i
  | None, Some e =>
      be <- two_mode_match candidate e ;; ret (negb be)
  | Some i, Some e =>
      bi <- two_mode_match candidate i ;;
      be <- two_mode_match candidate e ;;
      ret (bi && negb be)
  end.


End StringUtils.

(** ** A reference model of [fnmatch] and [re]

    Strings are sequences of 8-bit characters.  The model covers the
    regular fragment of the [re] syntax: literal characters, [.], sets
    [[...]] with ranges, negation and the class escapes, the escapes
    [\d \D \w \W \s \S], the anchors [\A \Z ^ $], groups [(...)] and
    [(?:...)], alternation, and the repeats [* + ?] with their lazy forms.
    A pattern is matched by taking derivatives: whether a compiled pattern
    matches does not depend on the order in which a backtracking matcher
    would try the alternatives. *)

Module RefLib.

Local Open Scope char_scope.

Definition char_le (a b : ascii) : bool :=
  Nat.leb (nat_of_ascii a) (nat_of_ascii b).

Definition newline : ascii := "010".

(** One member of a set: the characters of [ranges], or with [inv] the
    characters outside them (the class escapes [\D], [\W] and [\S]). *)
Record citem : Type := CItem { inv : bool; ranges : list (ascii * ascii) }.

Record cset : Type := CSet { cneg : bool; citems : list citem }.

Definition in_ranges (c : ascii) (rs : list (ascii * ascii)) : bool :=
  existsb (fun r => char_le (fst r) c && char_le c (snd r)) rs.

Definition citem_mem (c : ascii) (i : citem) : bool :=
  xorb (inv i) (in_ranges c (ranges i)).

Definition cset_mem (c : ascii) (cs : cset) : bool :=
  xorb (cneg cs) (existsb (citem_mem c) (citems cs)).

Definition lit (c : ascii) : citem := CItem false [(c, c)].

(** Compiled patterns. *)
Inductive regex : Type :=
| Void                       (* matches nothing *)
| Eps                        (* the empty string *)
| Chr (c : ascii)            (* the character [c] *)
| Chars (cs : cset)          (* one character of [cs] *)
| Bos                        (* [\A] and [^]: start of the string *)
| Eos                        (* [\Z]: end of the string *)
| Eol                        (* [$]: end, or before a final newline *)
| Cat (r1 r2 : regex)
| Alt (r1 r2 : regex)
| Star (r : regex).

(** [nullable bos rest r]: [r] matches the empty string at a position
    that is the start of the subject iff [bos], and where [rest] is what
    remains of the subject. *)
Fixpoint nullable (bos : bool) (rest : string) (r : regex) : bool :=
  match r with
  | Void | Chr _ | Chars _ => false
  | Eps | Star _ => true
  | Bos => bos
  | Eos => String.eqb rest EmptyString
  | Eol => String.eqb rest EmptyString
           || String.eqb rest (String newline EmptyString)
  | Cat r1 r2 => nullable bos rest r1 && nullable bos rest r2
  | Alt r1 r2 => nullable bos rest r1 || nullable bos rest r2
  end.

(** [deriv bos c rest r]: what is left of [r] once it has consumed [c],
    at a position where the subject continues with [c] and then [rest]. *)
Fixpoint deriv (bos : bool) (c : ascii) (rest : string) (r : regex) : regex :=
  match r with
  | Void | Eps | Bos | Eos | Eol => Void
  | Chr a => if Ascii.eqb a c then Eps else Void
  | Chars cs => if cset_mem c cs then Eps else Void
  | Cat r1 r2 =>
      Alt (Cat (deriv bos c rest r1) r2)
          (if nullable bos (String c rest) r1 then deriv bos c rest r2
           else Void)
  | Alt r1 r2 => Alt (deriv bos c rest r1) (deriv bos c rest r2)
  | Star r1 => Cat (deriv bos c rest r1) (Star r1)
  end.

(** [Pattern.match]: some prefix of [s] is matched by [r]. *)
Fixpoint match_at (bos : bool) (s : string) (r : regex) {struct s} : bool :=
  nullable bos s r
  || match s with
     | EmptyString => false
     | String c rest => match_at false rest (deriv bos c rest r)
     end.

(** [Pattern.search]: [r] matches at some position of [s]. *)
Fixpoint search_at (bos : bool) (s : string) (r : regex) {struct s} : bool :=
  match_at bos s r
  || match s with
     | EmptyString => false
     | String _ rest => search_at false rest r
     end.

(** *** What a compiled pattern accepts

    [accepts bos w post r]: [r] matches the characters [w] of a subject
    that goes on with [post], starting at the start of the subject iff
    [bos]. *)

Definition empty (w : string) : bool :=
  match w with EmptyString => true | String _ _ => false end.

Inductive accepts : bool -> string -> string -> regex -> Prop :=
| AEps bos post : accepts bos EmptyString post Eps
| AChr bos post c : accepts bos (String c EmptyString) post (Chr c)
| AChars bos post c cs :
    cset_mem c cs = true -> accepts bos (String c EmptyString) post (Chars cs)
| ABos post : accepts true EmptyString post Bos
| AEos bos : accepts bos EmptyString EmptyString Eos
| AEol bos post :
    post = EmptyString \/ post = String newline EmptyString -> accepts bos EmptyString post Eol
| ACat bos w1 w2 post r1 r2 :
    accepts bos w1 (w2 ++ post) r1 ->
    accepts (bos && empty w1) w2 post r2 ->
    accepts bos (w1 ++ w2) post (Cat r1 r2)
| AAltL bos w post r1 r2 : accepts bos w post r1 -> accepts bos w post (Alt r1 r2)
| AAltR bos w post r1 r2 : accepts bos w post r2 -> accepts bos w post (Alt r1 r2)
| AStarNil bos post r : accepts bos EmptyString post (Star r)
| AStarApp bos w1 w2 post r :
    accepts bos w1 (w2 ++ post) r ->
    accepts (bos && empty w1) w2 post (Star r) ->
    accepts bos (w1 ++ w2) post (Star r).

(** *** Reading a pattern

    The classes of [\d], [\w] and [\s] are those of the ASCII
    characters, as [re] has them for byte patterns; on a text, [\w] and
    [\s] hold for characters from U+0080 on as well, which are not
    modelled. *)

Definition digit_class : list (ascii * ascii) := [("0", "9")].
Definition word_class : list (ascii * ascii) :=
  [("a", "z"); ("A", "Z"); ("0", "9"); ("_", "_")].
Definition space_class : list (ascii * ascii) :=
  [(" ", " "); ("009", "013")].

Definition is_digit (c : ascii) : bool := in_ranges c digit_class.
Definition is_letter (c : ascii) : bool :=
  in_ranges c [("a", "z"); ("A", "Z")].

(** A backslash escape: a class, a character, an anchor (outside sets),
    or an escape that the model does not cover. *)
Inductive escape : Type :=
| EClass (i : citem)
| EChar (c : ascii)
| EAnchor (r : regex)
| EOther.

Definition class_escape (e : ascii) : option citem :=
  if Ascii.eqb e "d" then Some (CItem false digit_class)
  else if Ascii.eqb e "D" then Some (CItem true digit_class)
  else if Ascii.eqb e "w" then Some (CItem false word_class)
  else if Ascii.eqb e "W" then Some (CItem true word_class)
  else if Ascii.eqb e "s" then Some (CItem false space_class)
  else if Ascii.eqb e "S" then Some (CItem true space_class)
  else None.

Definition control_escape (e : ascii) : option ascii :=
  if Ascii.eqb e "n" then Some "010"
  else if Ascii.eqb e "t" then Some "009"
  else if Ascii.eqb e "r" then Some "013"
  else if Ascii.eqb e "f" then Some "012"
  else if Ascii.eqb e "v" then Some "011"
  else if Ascii.eqb e "a" then Some "007"
  else None.

Definition read_escape (in_set : bool) (e : ascii) : escape :=
  match class_escape e with
  | Some i => EClass i
  | None =>
      match control_escape e with
      | Some c => EChar c
      | None =>
          if negb in_set && Ascii.eqb e "A" then EAnchor Bos
          else if negb in_set && Ascii.eqb e "Z" then EAnchor Eos
          else if in_set && Ascii.eqb e "b" then EChar "008"
          else if is_digit e || is_letter e then EOther
          else if char_le e "127" then EChar e
          else EOther
      end
  end.

Inductive repeat : Type := RStar | RPlus | ROpt.

Inductive token : Type :=
| TAtom (r : regex)
| TAnchor (r : regex)
| TOpen
| TClose
| TBar
| TRepeat (k : repeat).

(** Outcome of reading a pattern: [Invalid] is a pattern that [re]
    refuses with [re.error]; [Unsupported] is a pattern outside the
    modelled fragment. *)
Inductive reading (A : Type) : Type :=
| Read (a : A)
| Invalid
| Unsupported.
Arguments Read {A} a.
Arguments Invalid {A}.
Arguments Unsupported {A}.

Definition reading_map {A B : Type} (f : A -> B) (x : reading A) : reading B :=
  match x with
  | Read a => Read (f a)
  | Invalid => Invalid
  | Unsupported => Unsupported
  end.

Inductive lex_mode : Type :=
| Top
| InSet (neg first : bool) (acc : list citem).

Definition any_char : regex := Chars (CSet true []).
Definition dot : regex := Chars (CSet true [lit newline]).

Definition repeat_of (c : ascii) : option repeat :=
  if Ascii.eqb c "*" then Some RStar
  else if Ascii.eqb c "+" then Some RPlus
  else if Ascii.eqb c "?" then Some ROpt
  else None.

Definition starts_with (c : ascii) (l : list ascii) : bool :=
  match l with
  | x :: _ => Ascii.eqb x c
  | [] => false
  end.

(** Splits a pattern into tokens; a set [[...]] becomes one atom. *)
Fixpoint lex (mode : lex_mode) (skip : nat) (l : list ascii)
  : reading (list token) :=
  match l with
  | [] => match mode with Top => Read [] | InSet _ _ _ => Invalid end
  | c :: rest =>
    match skip with
    | S k => lex mode k rest
    | O =>
      match mode with
      | Top =>
          let emit t n := reading_map (cons t) (lex Top n rest) in
          if Ascii.eqb c "\" then
            match rest with
            | [] => Invalid
            | e :: _ =>
                match read_escape false e with
                | EClass i => emit (TAtom (Chars (CSet false [i]))) 1
                | EChar x => emit (TAtom (Chr x)) 1
                | EAnchor r => emit (TAnchor r) 1
                | EOther => Unsupported
                end
            end
          else if Ascii.eqb c "[" then
            if starts_with "^" rest then lex (InSet true true []) 1 rest
            else lex (InSet false true []) 0 rest
          else if Ascii.eqb c "(" then
            match rest with
            | "?" :: ":" :: _ => emit TOpen 2
            | "?" :: _ => Unsupported
            | _ => emit TOpen 0
            end
          else if Ascii.eqb c ")" then emit TClose 0
          else if Ascii.eqb c "|" then emit TBar 0
          else if Ascii.eqb c "{" then Unsupported
          else if Ascii.eqb c "." then emit (TAtom dot) 0
          else if Ascii.eqb c "^" then emit (TAnchor Bos) 0
          else if Ascii.eqb c "$" then emit (TAnchor Eol) 0
          else
            match repeat_of c with
            | Some k =>
                if starts_with "?" rest then emit (TRepeat k) 1
                else if starts_with "+" rest then Unsupported
                else emit (TRepeat k) 0
            | None => emit (TAtom (Chr c)) 0
            end
      | InSet neg first acc =>
          let item i n := lex (InSet neg false (i :: acc)) n rest in
          if Ascii.eqb c "]" && negb first then
            reading_map (cons (TAtom (Chars (CSet neg (rev acc)))))
                        (lex Top 0 rest)
          else if Ascii.eqb c "\" then
            match rest with
            | [] => Invalid
            | e :: after =>
                let ranged :=
                  match after with
                  | "-" :: x :: _ => negb (Ascii.eqb x "]")
                  | _ => false
                  end in
                match read_escape true e with
                | EClass i => if ranged then Invalid else item i 1
                | EChar x => if ranged then Unsupported else item (lit x) 1
                | EAnchor _ | EOther => Unsupported
                end
            end
          else
            match rest with
            | "-" :: d :: _ =>
                if Ascii.eqb d "]" then item (lit c) 0
                else if Ascii.eqb d "\" then Unsupported
                else if char_le c d then item (CItem false [(c, d)]) 2
                else Invalid
            | _ => item (lit c) 0
            end
      end
    end
  end.

(** What the parser knows of the last item of the branch being read. *)
Inductive item_kind : Type := Plain | Anchor | Repeated.

(** A group being read: the branches already closed by [|] (most recent
    first), the items of the current branch but the last, and the last
    item. *)
Record frame : Type := Frame
  { alts : list regex; branch : regex; last : option (regex * item_kind) }.

Definition empty_frame : frame := Frame [] Eps None.

Definition cat (r1 r2 : regex) : regex :=
  match r1, r2 with
  | Eps, _ => r2
  | _, Eps => r1
  | _, _ => Cat r1 r2
  end.

Definition close_branch (f : frame) : regex :=
  match last f with
  | Some (r, _) => cat (branch f) r
  | None => branch f
  end.

Definition close_frame (f : frame) : regex :=
  fold_left (fun acc b => Alt b acc) (alts f) (close_branch f).

Definition push_item (f : frame) (r : regex) (k : item_kind) : frame :=
  Frame (alts f) (close_branch f) (Some (r, k)).

Definition apply_repeat (k : repeat) (r : regex) : regex :=
  match k with
  | RStar => Star r
  | RPlus => Cat r (Star r)
  | ROpt => Alt r Eps
  end.

(** Builds the pattern from its tokens; [outer] holds the groups that
    enclose the one being read. *)
Fixpoint parse_tokens (ts : list token) (f : frame) (outer : list frame)
  : reading regex :=
  match ts with
  | [] =>
      match outer with
      | [] => Read (close_frame f)
      | _ :: _ => Invalid
      end
  | t :: ts' =>
      match t with
      | TAtom r => parse_tokens ts' (push_item f r Plain) outer
      | TAnchor r => parse_tokens ts' (push_item f r Anchor) outer
      | TOpen => parse_tokens ts' empty_frame (f :: outer)
      | TClose =>
          match outer with
          | [] => Invalid
          | g :: outer' =>
              parse_tokens ts' (push_item g (close_frame f) Plain) outer'
          end
      | TBar =>
          parse_tokens ts' (Frame (close_branch f :: alts f) Eps None) outer
      | TRepeat k =>
          match last f with
          | Some (r, Plain) =>
              parse_tokens ts'
                (Frame (alts f) (branch f) (Some (apply_repeat k r, Repeated)))
                outer
          | Some (_, Anchor) | Some (_, Repeated) | None => Invalid
          end
      end
  end.

Definition parse (p : string) : reading regex :=
  match lex Top 0 (list_ascii_of_string p) with
  | Read ts => parse_tokens ts empty_frame []
  | Invalid => Invalid
  | Unsupported => Unsupported
  end.

(** [re.compile]: a pattern outside the fragment is refused as well. *)
Definition compile (p : string) : option regex :=
  match parse p with
  | Read r => Some r
  | Invalid | Unsupported => None
  end.

(** *** Shell patterns *)

(** The members of a set of a shell pattern: every character stands for
    itself, [a-b] is a range, and a range with [a > b] is empty. *)
Fixpoint glob_items (l : list ascii) (skip : nat) : list citem :=
  match l with
  | [] => []
  | c :: rest =>
      match skip with
      | S k => glob_items rest k
      | O =>
          match rest with
          | "-" :: d :: _ =>
              if char_le c d then CItem false [(c, d)] :: glob_items rest 2
              else glob_items rest 2
          | _ => lit c :: glob_items rest 0
          end
      end
  end.

(** The position of the first ["]"] of [l] that is at index [n] or
    later, given that [l] starts at index [i]. *)
Fixpoint find_close (l : list ascii) (i n : nat) : option nat :=
  match l with
  | [] => None
  | c :: rest =>
      if Nat.leb n i && Ascii.eqb c "]" then Some i
      else find_close rest (S i) n
  end.

(** After a ["["]: the text of the set and its closing position, if the
    set is closed.  A ["!"] and then a ["]"] right after the opening
    bracket belong to the set. *)
Definition glob_set (rest : list ascii) : option (cset * nat) :=
  let neg := starts_with "!" rest in
  let j0 := if neg then 1 else 0 in
  let j1 := if starts_with "]" (skipn j0 rest) then S j0 else j0 in
  match find_close rest 0 j1 with
  | Some j =>
      Some (CSet neg (glob_items (firstn (j - j0) (skipn j0 rest)) 0), S j)
  | None => None
  end.

(** [fnmatch.translate], to a compiled pattern. *)
Fixpoint glob (l : list ascii) (skip : nat) : regex :=
  match l with
  | [] => Eps
  | c :: rest =>
      match skip with
      | S k => glob rest k
      | O =>
          if Ascii.eqb c "*" then cat (Star any_char) (glob rest 0)
          else if Ascii.eqb c "?" then cat any_char (glob rest 0)
          else if Ascii.eqb c "[" then
            match glob_set rest with
            | Some (cs, n) => cat (Chars cs) (glob rest n)
            | None => cat (Chr c) (glob rest 0)
            end
          else cat (Chr c) (glob rest 0)
      end
  end.

(** [fnmatch.fnmatch(name, pat)]: the whole of [name] is matched. *)
Definition fnmatch (name pat : string) : bool :=
  match_at true name (Cat (glob (list_ascii_of_string pat) 0) Eos).

(** A pattern that no string can match, whatever the position. *)
Fixpoint void (r : regex) : bool :=
  match r with
  | Void => true
  | Cat r1 r2 => void r1 || void r2
  | Alt r1 r2 => void r1 && void r2
  | Eps | Chr _ | Chars _ | Bos | Eos | Eol | Star _ => false
  end.

End RefLib.

(** ** Other helpers of [salt/utils/stringutils.py] *)

Module Helpers.

(** Exceptions that leave these helpers.  [IOError] carries what the
    handler of [print_cli] reads: [exc.errno] and the text of the
    exception. *)
Inductive errno : Type := EPIPE | EAGAIN | OtherErrno (n : nat) | NoErrno.

Inductive raised : Type :=
| IndexError
| ValueError
| NotSubscriptable
| WrongType                      (* [TypeError] *)
| UnicodeEncodeError
| UnicodeDecodeError
| LookupError                    (* an encoding that does not exist *)
| IOError (e : errno) (text : string)
| OtherException (name : string). (* any other class, by its name *)

Inductive outcome (A : Type) : Type :=
| Returns (a : A)
| Raises (e : raised).
Arguments Returns {A} a.
Arguments Raises {A} e.

(** [s[:-1]] *)
Fixpoint but_last (s : string) : string :=
  match s with
  | EmptyString => EmptyString
  | String c s' =>
      match s' with
      | EmptyString => EmptyString
      | String _ _ => String c (but_last s')
      end
  end.

(** [s[-1]], [None] standing for [IndexError] *)
Fixpoint last_char (s : string) : option ascii :=
  match s with
  | EmptyString => None
  | String c s' =>
      match s' with
      | EmptyString => Some c
      | String _ _ => last_char s'
      end
  end.

(** [s[0]], [None] standing for [IndexError] *)
Definition first_char (s : string) : option ascii :=
  match s with
  | EmptyString => None
  | String c _ => Some c
  end.

(** [s[1:]] *)
Definition but_first (s : string) : string :=
  match s with
  | EmptyString => EmptyString
  | String _ s' => s'
  end.

Definition nonempty (s : string) : bool :=
  match s with
  | EmptyString => false
  | String _ _ => true
  end.

(** *** [human_to_bytes]

    A string is a text whose characters are the code points below 256.
    Among them [str.isdigit] holds for the ten decimal digits and for
    the superscripts two, three and one (U+00B2, U+00B3, U+00B9); [int]
    reads the decimal digits only. *)

Definition is_decimal_char (c : ascii) : bool :=
  Nat.leb 48 (nat_of_ascii c) && Nat.leb (nat_of_ascii c) 57.

Definition is_digit_char (c : ascii) : bool :=
  is_decimal_char c
  || Nat.eqb (nat_of_ascii c) 178
  || Nat.eqb (nat_of_ascii c) 179
  || Nat.eqb (nat_of_ascii c) 185.

Fixpoint all_digits (s : string) : bool :=
  match s with
  | EmptyString => true
  | String c s' => is_digit_char c && all_digits s'
  end.

Fixpoint all_decimal (s : string) : bool :=
  match s with
  | EmptyString => true
  | String c s' => is_decimal_char c && all_decimal s'
  end.

(** [s.isdigit()]: at least one character, and only digits. *)
Definition isdigit (s : string) : bool := nonempty s && all_digits s.

(** [s.isdecimal()]: at least one character, and only decimal digits. *)
Definition isdecimal (s : string) : bool := nonempty s && all_decimal s.

Definition digit_value (c : ascii) : Z := Z.of_nat (nat_of_ascii c - 48).

Fixpoint int_of_digits (acc : Z) (s : string) : Z :=
  match s with
  | EmptyString => acc
  | String c s' => int_of_digits (acc * 10 + digit_value c) s'
  end.

(** The limit of the interpreter on the length of a decimal string
    that [int] converts ([sys.get_int_max_str_digits()], which is [0] or
    at least [640]); [0] is no limit, which is also what an interpreter
    without this setting has.  Leading zeros count. *)
Definition over_limit (max_str_digits : N) (s : string) : bool :=
  negb (N.eqb max_str_digits 0)
  && N.ltb max_str_digits (N.of_nat (String.length s)).

(** [int(s)] for a string [s] that [isdigit] holds for: [ValueError] on
    a digit that is not decimal, and on more digits than the limit. *)
Definition py_int (max_str_digits : N) (s : string) : outcome Z :=
  if isdecimal s && negb (over_limit max_str_digits s)
  then Returns (int_of_digits 0 s)
  else Raises ValueError.

(** [[
def human_to_bytes(size):
    sbytes = size[:-1]
    unit = size[-1]
    if sbytes.isdigit():
        sbytes = int(sbytes)
        if unit == 'P':
            sbytes *= 1125899906842624
        elif unit == 'T':
            sbytes *= 1099511627776
        elif unit == 'G':
            sbytes *= 1073741824
        elif unit == 'M':
            sbytes *= 1048576
        else:
            sbytes = 0
    else:
        sbytes = 0
    return sbytes
]] *)
Definition human_to_bytes_on (max_str_digits : N) (size : string)
  : outcome Z :=
  let sbytes := but_last size in
  match last_char size with
  | None => Raises IndexError
  | Some unit =>
      if isdigit sbytes then
        match py_int max_str_digits sbytes with
        | Raises e => Raises e
        | Returns sbytes =>
            if Ascii.eqb unit "P" then Returns (sbytes * 1125899906842624)%Z
            else if Ascii.eqb unit "T" then Returns (sbytes * 1099511627776)%Z
            else if Ascii.eqb unit "G" then Returns (sbytes * 1073741824)%Z
            else if Ascii.eqb unit "M" then Returns (sbytes * 1048576)%Z
            else Returns 0%Z
        end
      else Returns 0%Z
  end.

(** The function on an interpreter that sets no limit on [int]. *)
Definition human_to_bytes (size : string) : outcome Z :=
  human_to_bytes_on 0 size.

(** The factor of a unit letter, [0] for a letter that is no unit. *)
Definition unit_factor (unit : ascii) : Z :=
  if Ascii.eqb unit "P" then 1125899906842624
  else if Ascii.eqb unit "T" then 1099511627776
  else if Ascii.eqb unit "G" then 1073741824
  else if Ascii.eqb unit "M" then 1048576
  else 0.

(** [str(n)] for a natural number [n]. *)
Definition py_str_nat (n : N) : string :=
  DecimalString.NilZero.string_of_uint (N.to_uint n).

(** *** [is_quoted] and [dequote] *)

Definition is_quote_char (c : ascii) : bool :=
  Ascii.eqb c "'" || Ascii.eqb c "034".

(** [value.startswith] of the two quote characters, the single and
    the double one *)
Definition starts_with_quote (s : string) : bool :=
  match s with
  | EmptyString => false
  | String c _ => is_quote_char c
  end.

(** [[
def is_quoted(value):
    ret = ''
    if isinstance(value, six.string_types) \
            and value[0] == value[-1] \
            and value.startswith((SINGLE_QUOTE, DOUBLE_QUOTE)):
        ret = value[0]
    return ret
]]
    where [SINGLE_QUOTE] and [DOUBLE_QUOTE] stand for the two one-character
    string literals of the source. *)
Definition is_quoted (value : pyval) : outcome string :=
  let ret := EmptyString in
  match value with
  | PStr s =>
      match first_char s, last_char s with
      | Some f, Some l =>
          if Ascii.eqb f l && starts_with_quote s
          then Returns (String f EmptyString)
          else Returns ret
      | _, _ => Raises IndexError
      end
  | _ => Returns ret
  end.

(** [value[1:-1]] *)
Definition slice_inner (value : pyval) : outcome pyval :=
  match value with
  | PStr s => Returns (PStr (but_last (but_first s)))
  | PList l => Returns (PList (removelast (tl l)))
  | PNone | PBool _ | PInt _ => Raises NotSubscriptable
  end.

(** [[
def dequote(value):
    if is_quoted(value):
        return value[1:-1]
    return value
]] *)
Definition dequote (value : pyval) : outcome pyval :=
  match is_quoted value with
  | Raises e => Raises e
  | Returns q => if nonempty q then slice_inner value else Returns value
  end.

(** *** [to_none] and [contains_whitespace]

    [isspace] is [str.isspace] on one character; [str.strip()] removes
    the characters it holds for from both ends. *)

Section Whitespace.

Variable isspace : ascii -> bool.

Fixpoint lstrip (s : string) : string :=
  match s with
  | EmptyString => EmptyString
  | String c s' => if isspace c then lstrip s' else s
  end.

Fixpoint rstrip (s : string) : string :=
  match s with
  | EmptyString => EmptyString
  | String c s' =>
      match rstrip s' with
      | EmptyString => if isspace c then EmptyString else String c EmptyString
      | r => String c r
      end
  end.

Definition strip (s : string) : string := rstrip (lstrip s).

(** No character of [s] but whitespace. *)
Definition all_space (s : string) : bool :=
  forallb isspace (list_ascii_of_string s).

(** [[
def to_none(text):
    if str(text).strip():
        return text
    return None
]]
    for a [text] that is a string. *)
Definition to_none (text : string) : option string :=
  if nonempty (strip text) then Some text else None.

(** [[
def contains_whitespace(text):
    return any(x.isspace() for x in text)
]] *)
Definition contains_whitespace (text : string) : bool :=
  existsb isspace (list_ascii_of_string text).

End Whitespace.

(** *** [print_cli]

    The outside world is the outcome of each call of [print], in the
    order of the calls: the message is written, or the call raises
    [UnicodeEncodeError], an [IOError], or an exception of another class
    (a [ValueError] on a closed stream, say).  [retries] is a natural
    number. *)

Inductive print_result : Type :=
| Printed
| PrintEncodeError
| PrintIOError (e : errno) (text : string)
| PrintOtherError (name : string).

Inductive event : Type :=
| Wrote (encoded : bool)     (* [msg], or [msg.encode('utf-8')], was printed *)
| Slept.                     (* [time.sleep(step)] *)

Record cli_state : Type := CliState { calls : nat; events : list event }.

Definition errno_eqb (a b : errno) : bool :=
  match a, b with
  | EPIPE, EPIPE | EAGAIN, EAGAIN | NoErrno, NoErrno => true
  | OtherErrno n, OtherErrno m => Nat.eqb n m
  | _, _ => false
  end.

(** [sub in s] *)
Definition contains (sub s : string) : bool :=
  match String.index 0 sub s with
  | Some _ => true
  | None => false
  end.

Fixpoint count_slept (l : list event) : nat :=
  match l with
  | [] => 0
  | Slept :: l' => S (count_slept l')
  | Wrote _ :: l' => count_slept l'
  end.

Fixpoint count_wrote (l : list event) : nat :=
  match l with
  | [] => 0
  | Wrote _ :: l' => S (count_wrote l')
  | Slept :: l' => count_wrote l'
  end.

(** An [IOError] after which [print_cli] sleeps and tries again. *)
Definition retryable (e : errno) (err : string) : bool :=
  negb (errno_eqb e EPIPE)
  && (contains "temporarily unavailable" err || errno_eqb e EAGAIN).

Section PrintCli.

Variable world : nat -> print_result.

(** One call of [print]. *)
Definition do_print (encoded : bool) (st : cli_state)
  : print_result * cli_state :=
  let r := world (calls st) in
  (r, CliState (S (calls st))
        (match r with
         | Printed => events st ++ [Wrote encoded]
         | _ => events st
         end)%list).

(** [[
try:
    print(msg)
except UnicodeEncodeError:
    print(msg.encode('utf-8'))
]] *)
Definition print_msg (st : cli_state) : print_result * cli_state :=
  let (r, st1) := do_print false st in
  match r with
  | PrintEncodeError => do_print true st1
  | _ => (r, st1)
  end.

(** [[
def print_cli(msg, retries=10, step=0.01):
    while retries:
        try:
            try:
                print(msg)
            except UnicodeEncodeError:
                print(msg.encode('utf-8'))
        except IOError as exc:
            err = "{0}".format(exc)
            if exc.errno != errno.EPIPE:
                if (
                    ("temporarily unavailable" in err or
                     exc.errno in (errno.EAGAIN,)) and
                    retries
                ):
                    time.sleep(step)
                    retries -= 1
                    continue
                else:
                    raise
        break
]] *)
Fixpoint print_cli (retries : nat) (st : cli_state)
  : outcome unit * cli_state :=
  match retries with
  | O => (Returns tt, st)
  | S retries' =>
      let (r, st1) := print_msg st in
      match r with
      | Printed => (Returns tt, st1)
      | PrintEncodeError => (Raises UnicodeEncodeError, st1)
      | PrintOtherError name => (Raises (OtherException name), st1)
      | PrintIOError e err =>
          if negb (errno_eqb e EPIPE) then
            if (contains "temporarily unavailable" err || errno_eqb e EAGAIN)
               && negb (Nat.eqb retries 0)
            then print_cli retries'
                   (CliState (calls st1) (events st1 ++ [Slept])%list)
            else (Raises (IOError e err), st1)
          else (Returns tt, st1)
      end
  end.

End PrintCli.

(** *** [to_bytes], [to_str] and [to_unicode]

    An object is a text (the type [str] of Python 3, [unicode] of
    Python 2), a byte string (the type [bytes] of Python 3, [str] of
    Python 2), a [bytearray], or something else.  The codecs are those of
    the interpreter: [encode] and [decode] are [s.encode(encoding)] and
    [s.decode(encoding)], [decode_replace] is
    [s.decode(encoding, "replace")]. *)

Inductive obj : Type :=
| Text (t : list N)
| Bytes (b : string)
| ByteArray (b : string)
| Other (v : pyval).

Section Conversions.

Variable py3 : bool.                       (* [six.PY3] *)
Variable system_encoding : string.         (* [__salt_system_encoding__] *)
Variable encode : string -> list N -> outcome string.
Variable decode : string -> string -> outcome (list N).
Variable decode_replace : string -> string -> outcome (list N).

(** [encoding or __salt_system_encoding__] *)
Definition encoding_or_system (encoding : option string) : string :=
  match encoding with
  | Some e => if nonempty e then e else system_encoding
  | None => system_encoding
  end.

Definition bytes_result (r : outcome string) : outcome obj :=
  match r with
  | Returns b => Returns (Bytes b)
  | Raises e => Raises e
  end.

Definition text_result (r : outcome (list N)) : outcome obj :=
  match r with
  | Returns t => Returns (Text t)
  | Raises e => Raises e
  end.

(** [[
def to_str(s, encoding=None):
    if isinstance(s, str):
        return s
    if six.PY3:
        if isinstance(s, (bytes, bytearray)):
            return s.decode(encoding or __salt_system_encoding__, "replace")
        raise TypeError('expected str, bytes, or bytearray not {}'.format(type(s)))
    else:
        if isinstance(s, bytearray):
            return str(s)
        if isinstance(s, unicode):
            return s.encode(encoding or __salt_system_encoding__)
        raise TypeError('expected str, bytearray, or unicode')
]] *)
Definition to_str (s : obj) (encoding : option string) : outcome obj :=
  if py3 then
    match s with
    | Text _ => Returns s
    | Bytes b | ByteArray b =>
        text_result (decode_replace (encoding_or_system encoding) b)
    | Other _ => Raises WrongType
    end
  else
    match s with
    | Bytes _ => Returns s
    | ByteArray b => Returns (Bytes b)
    | Text t => bytes_result (encode (encoding_or_system encoding) t)
    | Other _ => Raises WrongType
    end.

(** [[
def to_bytes(s, encoding=None):
    if six.PY3:
        if isinstance(s, bytes):
            return s
        if isinstance(s, bytearray):
            return bytes(s)
        if isinstance(s, six.string_types):
            return s.encode(encoding or __salt_system_encoding__)
        raise TypeError('expected bytes, bytearray, or str')
    else:
        return to_str(s, encoding)
]] *)
Definition to_bytes (s : obj) (encoding : option string) : outcome obj :=
  if py3 then
    match s with
    | Bytes _ => Returns s
    | ByteArray b => Returns (Bytes b)
    | Text t => bytes_result (encode (encoding_or_system encoding) t)
    | Other _ => Raises WrongType
    end
  else to_str s encoding.

(** [[
def to_unicode(s, encoding=None):
    if not isinstance(s, (bytes, bytearray, six.string_types)):
        return s
    if six.PY3:
        if isinstance(s, (bytes, bytearray)):
            return to_str(s, encoding)
    else:
        if isinstance(s, str):
            return s.decode(encoding or __salt_system_encoding__)
    return s
]] *)
Definition to_unicode (s : obj) (encoding : option string) : outcome obj :=
  match s with
  | Other _ => Returns s
  | _ =>
      if py3 then
        match s with
        | Bytes _ | ByteArray _ => to_str s encoding
        | _ => Returns s
        end
      else
        match s with
        | Bytes b => text_result (decode (encoding_or_system encoding) b)
        | _ => Returns s
        end
  end.

(** The type [str] of the running interpreter. *)
Definition is_native_str (s : obj) : bool :=
  match s with
  | Text _ => py3
  | Bytes _ => negb py3
  | ByteArray _ | Other _ => false
  end.

Definition is_bytes (s : obj) : bool :=
  match s with
  | Bytes _ => true
  | _ => false
  end.

End Conversions.

End Helpers.

(** A one-byte codec, to run the conversions: a character is its code. *)
Definition latin1_encode (encoding : string) (t : list N)
  : Helpers.outcome string :=
  if forallb (fun n => N.ltb n 256) t
  then Helpers.Returns (string_of_list_ascii (map ascii_of_N t))
  else Helpers.Raises Helpers.UnicodeEncodeError.

Definition latin1_decode (encoding : string) (b : string)
  : Helpers.outcome (list N) :=
  Helpers.Returns (map N_of_ascii (list_ascii_of_string b)).

(** ** Notions used to state further properties *)

Definition patterns_of (o : option (list string)) : list string :=
  match o with
  | Some l => l
  | None => []
  end.

Definition is_nil {A : Type} (l : list A) : bool :=
  match l with
  | [] => true
  | _ :: _ => false
  end.

Definition is_str (v : pyval) : bool :=
  match v with
  | PStr _ => true
  | _ => false
  end.

(** * Properties *)

(** ** The reference model is a library *)

Module RefLibFacts.
Import RefLib.

Lemma void_nullable r :
  void r = true -> forall bos rest, nullable bos rest r = false.
Proof.
  induction r; simpl; intros Hv bos rest; try discriminate; auto.
  - apply orb_true_iff in Hv as [Hv | Hv].
    + now rewrite IHr1.
    + rewrite IHr2 by assumption. apply andb_false_r.
  - apply andb_true_iff in Hv as [Hv1 Hv2].
    now rewrite IHr1, IHr2.
Qed.

Lemma void_deriv r :
  void r = true -> forall bos a rest, void (deriv bos a rest r) = true.
Proof.
  induction r; simpl; intros Hv bos a rest; try discriminate; auto.
  - apply orb_true_iff in Hv as [Hv | Hv].
    + rewrite IHr1, void_nullable by assumption. reflexivity.
    + rewrite Hv, orb_true_r. simpl.
      destruct (nullable bos (String a rest) r1); auto.
  - apply andb_true_iff in Hv as [Hv1 Hv2].
    now rewrite IHr1, IHr2.
Qed.

Lemma void_match_at s :
  forall r bos, void r = true -> match_at bos s r = false.
Proof.
  induction s as [| c s IH]; intros r bos Hv; simpl.
  - rewrite void_nullable by assumption. reflexivity.
  - rewrite void_nullable by assumption. simpl.
    apply IH, void_deriv, Hv.
Qed.

(** The matcher decides [accepts]. *)

Lemma append_nil_r s : s ++ "" = s.
Proof. induction s; cbn; congruence. Qed.

Lemma append_assoc s1 s2 s3 : (s1 ++ s2) ++ s3 = s1 ++ (s2 ++ s3).
Proof. induction s1; cbn; congruence. Qed.

Lemma append_empty s1 s2 : s1 ++ s2 = "" -> s1 = "" /\ s2 = "".
Proof. destruct s1; cbn; [auto | discriminate]. Qed.

Lemma accepts_nullable r : forall bos post,
  nullable bos post r = true -> accepts bos "" post r.
Proof.
  induction r; intros bos post H; cbn [nullable] in H;
    try discriminate; try (now constructor).
  - subst. constructor.
  - apply String.eqb_eq in H. subst. constructor.
  - constructor. apply orb_true_iff in H as [H | H];
      apply String.eqb_eq in H; auto.
  - apply andb_true_iff in H as [H1 H2].
    change "" with ("" ++ "") at 1. constructor.
    + now apply IHr1.
    + cbn [empty]. rewrite andb_true_r. now apply IHr2.
  - apply orb_true_iff in H as [H | H];
      [apply AAltL, IHr1 | apply AAltR, IHr2]; exact H.
Qed.

Lemma nullable_accepts bos w post r :
  accepts bos w post r -> w = "" -> nullable bos post r = true.
Proof.
  induction 1; intros Hw; cbn [nullable]; try discriminate; try reflexivity.
  - destruct H as [-> | ->]; reflexivity.
  - apply append_empty in Hw as [-> ->].
    cbn [empty append] in *. rewrite andb_true_r in *.
    now rewrite IHaccepts1, IHaccepts2.
  - now rewrite IHaccepts.
  - rewrite IHaccepts by assumption. apply orb_true_r.
Qed.

Lemma accepts_deriv bos s post r :
  accepts bos s post r ->
  forall c u, s = String c u ->
  accepts false u post (deriv bos c (u ++ post) r).
Proof.
  induction 1; intros a u Hs; cbn [deriv]; try discriminate.
  - injection Hs as -> <-. rewrite Ascii.eqb_refl. constructor.
  - injection Hs as -> <-. rewrite H. constructor.
  - destruct w1 as [| c1 w1']; cbn [append] in Hs.
    + subst w2. apply AAltR.
      cbn [empty] in *. rewrite andb_true_r in *.
      change (String a (u ++ post)) with (String a u ++ post).
      rewrite (nullable_accepts _ _ _ _ H eq_refl).
      now apply IHaccepts2.
    + injection Hs as -> <-. apply AAltL.
      rewrite append_assoc. constructor.
      * now apply IHaccepts1.
      * cbn [empty] in H0. now rewrite andb_false_r in *.
  - apply AAltL. now apply IHaccepts.
  - apply AAltR. now apply IHaccepts.
  - destruct w1 as [| c1 w1']; cbn [append] in Hs.
    + subst w2. cbn [empty] in *. rewrite andb_true_r in *.
      now apply IHaccepts2.
    + injection Hs as -> <-.
      rewrite append_assoc. constructor.
      * now apply IHaccepts1.
      * cbn [empty] in H0. now rewrite andb_false_r in *.
Qed.

Lemma deriv_accepts r : forall bos c w post,
  accepts false w post (deriv bos c (w ++ post) r) ->
  accepts bos (String c w) post r.
Proof.
  induction r; intros bos a w post H; cbn [deriv] in H;
    try (now inversion H).
  - destruct (Ascii.eqb_spec c a) as [-> |]; inversion H; subst. constructor.
  - destruct (cset_mem a cs) eqn:E; inversion H; subst. now constructor.
  - inversion H; subst.
    + match goal with
      | Hc : accepts false _ post (Cat _ _) |- _ => inversion Hc; subst
      end.
      change (String a (w1 ++ w2)) with (String a w1 ++ w2).
      constructor.
      * apply IHr1. now rewrite <- append_assoc.
      * cbn [empty]. now rewrite andb_false_r.
    + destruct (nullable bos (String a (w ++ post)) r1) eqn:E;
        [| now match goal with Hv : accepts _ _ _ Void |- _ => inversion Hv end].
      change (String a w) with ("" ++ String a w).
      constructor.
      * now apply accepts_nullable.
      * cbn [empty]. rewrite andb_true_r. now apply IHr2.
  - inversion H; subst; [apply AAltL, IHr1 | apply AAltR, IHr2]; assumption.
  - inversion H; subst.
    change (String a (w1 ++ w2)) with (String a w1 ++ w2).
    constructor.
    + apply IHr. now rewrite <- append_assoc.
    + cbn [empty]. now rewrite andb_false_r.
Qed.

Lemma match_at_accepts s : forall bos r,
  match_at bos s r = true <->
  exists w post, s = w ++ post /\ accepts bos w post r.
Proof.
  induction s as [| c s IH]; intros bos r; cbn [match_at].
  - rewrite orb_false_r. split.
    + intros H. exists "", "". split; [reflexivity |].
      now apply accepts_nullable.
    + intros (w & post & Hs & H).
      symmetry in Hs. apply append_empty in Hs as [-> ->].
      exact (nullable_accepts _ _ _ _ H eq_refl).
  - rewrite orb_true_iff, IH. split.
    + intros [H | (w & post & -> & H)].
      * exists "", (String c s). split; [reflexivity |].
        now apply accepts_nullable.
      * exists (String c w), post. split; [reflexivity |].
        now apply deriv_accepts.
    + intros ([| a w] & post & Hs & H); cbn [append] in Hs.
      * left. subst post. exact (nullable_accepts _ _ _ _ H eq_refl).
      * injection Hs as <- ->. right. exists w, post.
        split; [reflexivity |]. exact (accepts_deriv _ _ _ _ H _ _ eq_refl).
Qed.

Lemma search_at_accepts s : forall bos r,
  search_at bos s r = true <->
  exists pre w post,
    s = pre ++ w ++ post /\ accepts (bos && empty pre) w post r.
Proof.
  induction s as [| c s IH]; intros bos r; cbn [search_at].
  - rewrite orb_false_r, match_at_accepts. split.
    + intros (w & post & Hs & H). exists "", w, post.
      cbn [empty append]. now rewrite andb_true_r.
    + intros (pre & w & post & Hs & H).
      symmetry in Hs. apply append_empty in Hs as [-> Hs].
      cbn [empty] in H. rewrite andb_true_r in H. eauto.
  - rewrite orb_true_iff, match_at_accepts, IH. split.
    + intros [(w & post & Hs & H) | (pre & w & post & -> & H)].
      * exists "", w, post. cbn [empty append]. now rewrite andb_true_r.
      * exists (String c pre), w, post. split; [reflexivity |].
        cbn [empty]. now rewrite andb_false_r.
    + intros ([| a pre] & w & post & Hs & H); cbn [append empty] in *.
      * left. rewrite andb_true_r in H. eauto.
      * injection Hs as <- ->. right. rewrite andb_false_r in H.
        exists pre, w, post. split; [reflexivity | exact H].
Qed.

Lemma fnmatch_accepts name pat :
  fnmatch name pat = true <->
  accepts true name "" (glob (list_ascii_of_string pat) 0).
Proof.
  unfold fnmatch. rewrite match_at_accepts. split.
  - intros (w & post & -> & H). inversion H; subst.
    match goal with
    | He : accepts _ _ _ Eos |- _ => inversion He; subst
    end.
    now rewrite !append_nil_r in *.
  - intros H. exists name, "". split; [now rewrite append_nil_r |].
    rewrite <- (append_nil_r name). constructor.
    + now rewrite append_nil_r.
    + constructor.
Qed.

Lemma nullable_match_at bos s r :
  nullable bos s r = true -> match_at bos s r = true.
Proof. intros H. destruct s; simpl; rewrite H; reflexivity. Qed.

Lemma prefix_nil_l s : String.prefix "" s = true.
Proof. destruct s; reflexivity. Qed.

Lemma prefix_cons a s1 b s2 :
  String.prefix (String a s1) (String b s2)
  = Ascii.eqb a b && String.prefix s1 s2.
Proof.
  cbn [String.prefix].
  destruct (ascii_dec a b) as [-> | Hne].
  - now rewrite Ascii.eqb_refl.
  - destruct (Ascii.eqb_spec a b); [contradiction | reflexivity].
Qed.

Lemma prefix_nil_r a s1 : String.prefix (String a s1) "" = false.
Proof. reflexivity. Qed.

(** [re.match('E@', s)] tests that [s] starts with [E@]. *)
Lemma match_marker s :
  option_map (fun p => match_at true s p) (compile "E@")
  = Some (String.prefix "E@" s).
Proof.
  change (compile "E@") with (Some (Cat (Chr "E") (Chr "@"))).
  cbn [option_map]. f_equal.
  destruct s as [| c1 [| c2 s]].
  - reflexivity.
  - rewrite prefix_cons, prefix_nil_r, andb_false_r.
    cbn [match_at nullable deriv andb orb].
    destruct (Ascii.eqb "E" c1); reflexivity.
  - rewrite !prefix_cons.
    cbn [match_at nullable deriv andb orb].
    destruct (Ascii.eqb "E" c1); cbn [nullable deriv andb orb].
    + destruct (Ascii.eqb "@" c2); cbn [nullable deriv andb orb].
      * rewrite prefix_nil_l. apply nullable_match_at. reflexivity.
      * apply void_match_at. reflexivity.
    + apply void_match_at. reflexivity.
Qed.

End RefLibFacts.

(** The reference library: Python 3, with the model of [fnmatch] and
    [re]. *)
#[export] Instance ref_lib : PyLib :=
  {| PY3 := true;
     fnmatch_fnmatch := RefLib.fnmatch;
     re_pattern := RefLib.regex;
     re_compile := RefLib.compile;
     pattern_match := fun r s => RefLib.match_at true s r;
     pattern_search := fun r s => RefLib.search_at true s r;
     re_match_marker := RefLibFacts.match_marker |}.

(** The same library under Python 2, where [str] has no [__iter__]. *)
Definition ref_lib_py2 : PyLib :=
  {| PY3 := false;
     fnmatch_fnmatch := RefLib.fnmatch;
     re_pattern := RefLib.regex;
     re_compile := RefLib.compile;
     pattern_match := fun r s => RefLib.match_at true s r;
     pattern_search := fun r s => RefLib.search_at true s r;
     re_match_marker := RefLibFacts.match_marker |}.

(** ** The single-pattern matcher and the loops over pattern sets *)

Section RunFacts.

Context {L : PyRun}.

(** [expr_match] on a string pattern, stage by stage: [re.error] is a
    non-match, any other exception of [re] goes on to the caller. *)
Lemma expr_match_string line e :
  expr_match line (PStr e)
  = if String.eqb line e || run_fnmatch line e then Ok true
    else match run_compile ("\A" ++ e ++ "\Z") with
         | Ok p => Ok (run_match p line)
         | Raise x => if exn_eqb x ReError then Ok false else Raise x
         end.
Proof.
  unfold expr_match, match_anchored, re_match, try_except.
  cbn.
  destruct (String.eqb line e); [reflexivity |].
  destruct (run_fnmatch line e); [reflexivity |]. cbn.
  destruct (run_compile _) as [p | x]; cbn.
  - destruct (run_match p line); reflexivity.
  - destruct (exn_eqb x ReError); reflexivity.
Qed.

(** When [expr_match] returns on a string pattern, it returns what
    [matches] says. *)
Lemma expr_match_returns line e b :
  expr_match line (PStr e) = Ok b -> matches line e = b.
Proof.
  rewrite expr_match_string. unfold matches.
  destruct (String.eqb line e || run_fnmatch line e); cbn.
  - now intros [= <-].
  - destruct (run_compile _) as [p | x].
    + now intros [= <-].
    + destruct (exn_eqb x ReError); [now intros [= <-] | discriminate].
Qed.


End RunFacts.

Section MatcherFacts.

Context {L : PyLib}.

(** On a string pattern, [expr_match] returns, and returns what
    [matches] says. *)
Lemma expr_match_str line e :
  expr_match line (PStr e) = Ok (matches line e).
Proof.
  rewrite expr_match_string. unfold matches. cbn. unfold compile_of.
  destruct (String.eqb line e || fnmatch_fnmatch line e); [reflexivity |].
  now destruct (re_compile _) as [p |].
Qed.

(** [expr_match] raises nothing but [TypeError]. *)
Lemma expr_match_outcome line expr :
  (exists b, expr_match line expr = Ok b)
  \/ expr_match line expr = Raise TypeError.
Proof.
  destruct expr; try (right; reflexivity).
  left. eexists. apply expr_match_str.
Qed.

Lemma for_expr_match_strs value l r :
  for_expr_match value (map PStr l) r
  = Ok (if existsb (matches value) l then Some r else None).
Proof.
  induction l as [| p l IH]; [reflexivity |].
  cbn [map for_expr_match existsb].
  rewrite expr_match_str. cbn.
  destruct (matches value p); [reflexivity | exact IH].
Qed.

Lemma for_expr_match_outcome value items r :
  (exists o, for_expr_match value items r = Ok o)
  \/ for_expr_match value items r = Raise TypeError.
Proof.
  induction items as [| expr items IH]; cbn [for_expr_match].
  - left. eexists. reflexivity.
  - destruct (expr_match_outcome value expr) as [[b ->] | ->]; cbn.
    + destruct b; [left; eexists; reflexivity | exact IH].
    + right. reflexivity.
Qed.


End MatcherFacts.

(** ** Whitelist and blacklist *)

Section WhitelistBlacklist.

Context {L : PyLib}.






End WhitelistBlacklist.



(** ** Include and exclude patterns *)

Section IncludeExclude.

Context {L : PyRun}.

Lemma re_match_marker_prefix pat :
  re_match "E@" pat = Ok (String.prefix "E@" pat).
Proof. unfold re_match. apply run_marker. Qed.

(** The function computes the table of the specification. *)
Lemma include_exclude_equation path_str include_pat exclude_pat :
  check_include_exclude path_str include_pat exclude_pat
  = include_exclude_policy path_str include_pat exclude_pat.
Proof.
  unfold check_include_exclude, include_exclude_policy, supplied,
    two_mode_match, truthy_str.
  destruct include_pat as [i |], exclude_pat as [e |]; cbn;
    repeat match goal with
      | |- context [String.eqb ?s ""] => destruct (String.eqb s ""); cbn
      | |- context [re_match "E@" ?p] =>
          rewrite (re_match_marker_prefix p); cbn
      | |- context [String.prefix "E@" ?p] =>
          destruct (String.prefix "E@" p); cbn
      | |- context [re_search ?p ?s] => destruct (re_search p s) as [[] |]; cbn
      | |- context [run_fnmatch ?s ?p] =>
          destruct (run_fnmatch s p); cbn
      end;
    reflexivity.
Qed.

(** C3. Include/exclude combination policy: [check_include_exclude]
    returns [True] when neither pattern is supplied, the include match
    when only the include pattern is, the negation of the exclude match
    when only the exclude pattern is, and include match and no exclude
    match when both are: it computes the table [include_exclude_policy]. *)
Theorem include_exclude_combination
    (path_str : string) (include_pat exclude_pat : option string) :
  check_include_exclude path_str include_pat exclude_pat
  = match supplied include_pat, supplied exclude_pat with
    | None, None => Ok true
    | Some i, None => two_mode_match path_str i
    | None, Some e =>
        be <- two_mode_match path_str e ;; ret (negb be)
    | Some i, Some e =>
        bi <- two_mode_match path_str i ;;
        be <- two_mode_match path_str e ;;
        ret (bi && negb be)
    end.
Proof. apply include_exclude_equation. Qed.

(** C9. Empty-string patterns are treated as absent: with both patterns
    empty every candidate is admitted, and an empty include or exclude
    pattern gives the result of the call without it. *)
Theorem empty_pattern_is_absent (path_str : string) :
  check_include_exclude path_str (Some "") (Some "") = Ok true
  /\ (forall exclude_pat,
        check_include_exclude path_str (Some "") exclude_pat
        = check_include_exclude path_str None exclude_pat)
  /\ (forall include_pat,
        check_include_exclude path_str include_pat (Some "")
        = check_include_exclude path_str include_pat None).
Proof.
  split; [reflexivity | split]; intros p;
    rewrite !include_exclude_equation; reflexivity.
Qed.

End IncludeExclude.

Section TwoModes.

Context {L : PyRun}.

Lemma include_only path_str pat :
  check_include_exclude path_str (Some pat) None
  = if String.eqb pat "" then Ok true else two_mode_match path_str pat.
Proof.
  rewrite include_exclude_equation. unfold include_exclude_policy, supplied.
  destruct (String.eqb pat ""); reflexivity.
Qed.

Lemma exclude_only path_str pat :
  check_include_exclude path_str None (Some pat)
  = if String.eqb pat "" then Ok true
    else be <- two_mode_match path_str pat ;; ret (negb be).
Proof.
  rewrite include_exclude_equation. unfold include_exclude_policy, supplied.
  destruct (String.eqb pat ""); reflexivity.
Qed.

Lemma marked_pattern path_str rest :
  two_mode_match path_str ("E@" ++ rest) = re_search rest path_str.
Proof.
  unfold two_mode_match.
  change ("E@" ++ rest) with (String "E" (String "@" rest)).
  rewrite !RefLibFacts.prefix_cons, RefLibFacts.prefix_nil_l.
  reflexivity.
Qed.

End TwoModes.

(** C4. Two-mode matching: the remainder of a pattern that starts with
    [E@] is compiled as a regular expression and searched for in the
    candidate: it is found when some part of the candidate, wherever it
    starts and ends, is accepted.  Any other pattern is matched as a shell
    pattern that has to accept the whole candidate, and as nothing else.
    So [E@chroot] finds [chroot] inside [/etc/debian_chroot], which a
    match from the start or a shell pattern does not, and [[a-z]+[0-9]+]
    without the marker does not match [abc123], which it does as a regular
    expression. *)
Theorem two_mode_matching :
  (forall (L : PyLib) (path_str pat : string),
      check_include_exclude path_str (Some pat) None
      = if String.eqb pat "" then Ok true
        else if String.prefix "E@" pat
             then re_search (slice_from 2 pat) path_str
             else Ok (fnmatch_fnmatch path_str pat))
  /\ (forall (L : PyLib) (path_str pat : string),
        check_include_exclude path_str None (Some pat)
        = if String.eqb pat "" then Ok true
          else if String.prefix "E@" pat
               then be <- re_search (slice_from 2 pat) path_str ;;
                    ret (negb be)
               else Ok (negb (fnmatch_fnmatch path_str pat)))
  /\ (forall (path_str rest : string) (r : RefLib.regex),
        RefLib.compile rest = Some r ->
        check_include_exclude (L := ref_lib)
          path_str (Some ("E@" ++ rest)) None = Ok true
        <-> exists pre w post,
              path_str = pre ++ w ++ post
              /\ RefLib.accepts (RefLib.empty pre) w post r)
  /\ (forall (path_str pat : string),
        String.prefix "E@" pat = false ->
        check_include_exclude (L := ref_lib) path_str (Some pat) None
        = Ok true
        <-> pat = ""
            \/ RefLib.accepts true path_str ""
                 (RefLib.glob (list_ascii_of_string pat) 0))
  /\ check_include_exclude (L := ref_lib)
       "/etc/debian_chroot" (Some "E@chroot") None = Ok true
  /\ re_match (L := ref_lib) "chroot" "/etc/debian_chroot" = Ok false
  /\ RefLib.fnmatch "/etc/debian_chroot" "E@chroot" = false
  /\ check_include_exclude (L := ref_lib)
       "abc123" (Some "[a-z]+[0-9]+") None = Ok false
  /\ re_search (L := ref_lib) "[a-z]+[0-9]+" "abc123" = Ok true.
Proof.
  split; [| split; [| split; [| split;
    [| repeat split; vm_compute; reflexivity]]]].
  - intros L path_str pat. rewrite include_only. reflexivity.
  - intros L path_str pat. rewrite exclude_only. unfold two_mode_match.
    destruct (String.eqb pat ""); [reflexivity |].
    now destruct (String.prefix "E@" pat).
  - intros path_str rest r Hr.
    rewrite include_only, marked_pattern.
    change (String.eqb ("E@" ++ rest) "") with false. cbv iota.
    unfold re_search.
    cbn [run_compile run_search run_of re_compile pattern_search ref_lib].
    unfold compile_of. cbn [re_compile ref_lib].
    pose proof (RefLibFacts.search_at_accepts path_str true r) as Hs.
    cbn [andb] in Hs. rewrite Hr, <- Hs.
    split; [now intros [= ->] | now intros ->].
  - intros path_str pat Hp.
    rewrite include_only. unfold two_mode_match. rewrite Hp.
    cbn [run_fnmatch run_of fnmatch_fnmatch ref_lib].
    rewrite <- RefLibFacts.fnmatch_accepts.
    destruct (String.eqb_spec pat "") as [-> | Hne].
    + split; [now left | reflexivity].
    + split; [intros [= ->]; now right |].
      intros [-> | ->]; [contradiction | reflexivity].
Qed.

Lemma two_mode_matching_witness :
  RefLib.compile "chroot"
  = Some (RefLib.Cat (RefLib.Cat (RefLib.Cat (RefLib.Cat (RefLib.Cat
       (RefLib.Chr "c") (RefLib.Chr "h")) (RefLib.Chr "r"))
       (RefLib.Chr "o")) (RefLib.Chr "o")) (RefLib.Chr "t"))
  /\ exists pre w post,
       "/etc/debian_chroot" = pre ++ w ++ post
       /\ RefLib.accepts (RefLib.empty pre) w post
            (RefLib.Cat (RefLib.Cat (RefLib.Cat (RefLib.Cat (RefLib.Cat
               (RefLib.Chr "c") (RefLib.Chr "h")) (RefLib.Chr "r"))
               (RefLib.Chr "o")) (RefLib.Chr "o")) (RefLib.Chr "t")).
Proof.
  assert (H : RefLib.compile "chroot"
              = Some (RefLib.Cat (RefLib.Cat (RefLib.Cat (RefLib.Cat
                  (RefLib.Cat (RefLib.Chr "c") (RefLib.Chr "h"))
                  (RefLib.Chr "r")) (RefLib.Chr "o")) (RefLib.Chr "o"))
                  (RefLib.Chr "t")))
    by reflexivity.
  split; [exact H |].
  apply (proj1 (proj1 (proj2 (proj2 two_mode_matching))
                  "/etc/debian_chroot" "chroot" _ H)).
  vm_compute. reflexivity.
Defined.

(** C10. A bare [E@] matches every candidate: the remainder is the empty
    regular expression, which is found in every string, so [E@] as the
    include pattern admits every candidate and as the exclude pattern
    denies every candidate. *)
Theorem bare_marker_matches_all (path_str : string) :
  check_include_exclude (L := ref_lib) path_str (Some "E@") None = Ok true
  /\ check_include_exclude (L := ref_lib) path_str None (Some "E@")
     = Ok false.
Proof.
  assert (H : two_mode_match (L := ref_lib) path_str "E@" = Ok true).
  { change "E@" with ("E@" ++ "")%string. rewrite marked_pattern.
    unfold re_search. cbn.
    destruct path_str; reflexivity. }
  rewrite include_only, exclude_only, H. split; reflexivity.
Qed.

(** ** The regular expression stage of [expr_match] *)

(** C5. The pattern of the fallback stage is the text of [expr] between
    [\A] and [\Z].  This anchors [[a-z]+[0-9]+] at both ends: [abc123]
    matches and [xabc123y] does not.  It does not anchor a pattern with an
    alternation at both ends: in [\Aa|b\Z] the first branch is held at the
    start only, so [expr_match] accepts [ax] for [a|b], a candidate that is
    not equal to the pattern, that the shell pattern does not match, and
    that the regular expression [a|b] held at both ends does not match. *)
Theorem anchored_fallback_misses_alternation :
  expr_match (L := ref_lib) "abc123" (PStr "[a-z]+[0-9]+") = Ok true
  /\ expr_match (L := ref_lib) "xabc123y" (PStr "[a-z]+[0-9]+") = Ok false
  /\ expr_match (L := ref_lib) "ax" (PStr "a|b") = Ok true
  /\ String.eqb "ax" "a|b" = false
  /\ RefLib.fnmatch "ax" "a|b" = false
  /\ RefLib.parse "\Aa|b\Z"
     = RefLib.Read
         (RefLib.Alt (RefLib.Cat RefLib.Bos (RefLib.Chr "a"))
                     (RefLib.Cat (RefLib.Chr "b") RefLib.Eos))
  /\ re_match (L := ref_lib) "\Aa|b\Z" "ax" = Ok true
  /\ re_match (L := ref_lib) "\A(?:a|b)\Z" "ax" = Ok false.
Proof. repeat split; vm_compute; reflexivity. Qed.

(** ** Exceptions and malformed pattern sets *)

Section RunRobustness.

Context {L : PyRun}.

Lemma check_whitelist_blacklist_blocks value whitelist blacklist :
  check_whitelist_blacklist value whitelist blacklist
  = (r1 <- (if negb (is_none blacklist)
            then guarded_loop value blacklist false
                   "Non-iterable blacklist %s"
            else ret None) ;;
     match r1 : option bool with
     | Some b => ret b
     | None =>
         r2 <- (if truthy whitelist
                then guarded_loop value whitelist true
                       "Non-iterable whitelist %s"
                else ret (Some true)) ;;
         match r2 : option bool with
         | Some b => ret b
         | None => ret false
         end
     end).
Proof. reflexivity. Qed.

Lemma for_expr_match_some value items r b :
  for_expr_match value items r = Ok (Some b) -> b = r.
Proof.
  induction items as [| expr items IH]; cbn [for_expr_match].
  - discriminate.
  - destruct (expr_match value expr) as [[] | e]; cbn.
    + now intros [= <-].
    + exact IH.
    + discriminate.
Qed.

Lemma iter_outcome v :
  (exists items, iter v = Ok items) \/ iter v = Raise TypeError.
Proof. destruct v; cbn; eauto. Qed.


(** What a string pattern makes [expr_match] raise is what [re] raised
    on the anchored pattern, and is not [re.error]. *)
Lemma expr_match_raises line e x :
  expr_match line (PStr e) = Raise x ->
  x <> ReError /\ run_compile ("\A" ++ e ++ "\Z") = Raise x.
Proof.
  rewrite expr_match_string.
  destruct (String.eqb line e || run_fnmatch line e); [discriminate |].
  destruct (run_compile _) as [p | y]; [discriminate |].
  destruct (exn_eqb y ReError) eqn:E; [discriminate |].
  intros [= ->]. split; [| reflexivity].
  intros ->. discriminate.
Qed.




Lemma for_expr_match_all_false value l r :
  (forall q, In q l -> expr_match value (PStr q) = Ok false) ->
  for_expr_match value (map PStr l) r = Ok None.
Proof.
  induction l as [| q l IH]; intros H; cbn [map for_expr_match];
    [reflexivity |].
  rewrite (H q (or_introl eq_refl)). cbn.
  apply IH. intros q' Hq'. apply H. now right.
Qed.

Lemma for_expr_match_first_true value l1 p l2 r :
  (forall q, In q l1 -> expr_match value (PStr q) = Ok false) ->
  expr_match value (PStr p) = Ok true ->
  for_expr_match value (map PStr (l1 ++ p :: l2)) r = Ok (Some r).
Proof.
  induction l1 as [| q l1 IH]; intros H Hp; cbn [app map for_expr_match].
  - now rewrite Hp.
  - rewrite (H q (or_introl eq_refl)). cbn.
    apply IH; [| assumption]. intros q' Hq'. apply H. now right.
Qed.

Lemma guarded_loop_list value l r message log o :
  for_expr_match value l r = Ok o ->
  guarded_loop value (PList l) r message log = (Ok o, log).
Proof.
  intros H. unfold guarded_loop, try_except, lift. cbn. now rewrite H.
Qed.

Lemma truthy_strs (l : list string) :
  l <> [] -> truthy (PList (map PStr l)) = true.
Proof. destruct l; [contradiction | reflexivity]. Qed.

Lemma for_expr_match_without value e l1 l2 r :
  expr_match value (PStr e) = Ok false ->
  for_expr_match value (map PStr (l1 ++ e :: l2)) r
  = for_expr_match value (map PStr (l1 ++ l2)) r.
Proof.
  intros He. induction l1 as [| q l1 IH]; cbn [app map for_expr_match].
  - now rewrite He.
  - destruct (expr_match value (PStr q)) as [[] | x]; cbn; auto.
Qed.

Lemma for_expr_match_strs_raise value l r x :
  for_expr_match value (map PStr l) r = Raise x ->
  exists q, In q l /\ run_compile ("\A" ++ q ++ "\Z") = Raise x.
Proof.
  induction l as [| q l IH]; cbn [map for_expr_match]; [discriminate |].
  destruct (expr_match value (PStr q)) as [[] | y] eqn:E; cbn.
  - discriminate.
  - intros (q' & Hin & Hq')%IH. exists q'. split; [now right | assumption].
  - intros [= ->]. apply expr_match_raises in E as [_ E].
    exists q. split; [now left | assumption].
Qed.

Lemma guarded_loop_without value e l1 l2 r message log :
  (forall p, run_compile p <> Raise TypeError) ->
  expr_match value (PStr e) = Ok false ->
  guarded_loop value (PList (map PStr (l1 ++ e :: l2))) r message log
  = guarded_loop value (PList (map PStr (l1 ++ l2))) r message log.
Proof.
  intros Hno He. unfold guarded_loop, try_except, lift. cbn.
  rewrite (for_expr_match_without _ _ _ _ _ He).
  destruct (for_expr_match value (map PStr (l1 ++ l2)) r) as [o | x] eqn:E;
    cbn; [reflexivity |].
  apply for_expr_match_strs_raise in E as (q & _ & Hq).
  destruct x; try reflexivity. now apply Hno in Hq.
Qed.

(** C6, as the code has it.  When the fallback stage of [expr_match] is
    reached (the candidate is not the pattern and the shell pattern does
    not match) and the anchored pattern is refused with [re.error],
    [expr_match] returns [False] and raises nothing.  A blacklist or a
    whitelist goes on past such a pattern: a later pattern that matches
    still denies, or admits; and when no other pattern matches, the
    blacklist does not deny and the whitelist does not admit.  As long
    as [re] raises no [TypeError], the pattern can be taken out of a
    blacklist, and out of a whitelist that it is not alone in, without a
    change to what the call returns, raises and logs. *)
Theorem invalid_regex_is_non_match (line e : string) :
  line <> e ->
  run_fnmatch line e = false ->
  run_compile ("\A" ++ e ++ "\Z") = Raise ReError ->
  expr_match line (PStr e) = Ok false
  /\ ((forall p, run_compile p <> Raise TypeError) ->
      (forall whitelist l1 l2 log,
          check_whitelist_blacklist
            line whitelist (PList (map PStr (l1 ++ e :: l2))) log
          = check_whitelist_blacklist
              line whitelist (PList (map PStr (l1 ++ l2))) log)
      /\ (forall blacklist l1 l2 log,
            (l1 ++ l2)%list <> [] ->
            check_whitelist_blacklist
              line (PList (map PStr (l1 ++ e :: l2))) blacklist log
            = check_whitelist_blacklist
                line (PList (map PStr (l1 ++ l2))) blacklist log))
  /\ (forall whitelist l1 l2 p log,
        (forall q, In q l1 -> expr_match line (PStr q) = Ok false) ->
        expr_match line (PStr p) = Ok true ->
        check_whitelist_blacklist
          line whitelist (PList (map PStr (l1 ++ e :: p :: l2))) log
        = (Ok false, log))
  /\ (forall l1 l2 p log,
        (forall q, In q l1 -> expr_match line (PStr q) = Ok false) ->
        expr_match line (PStr p) = Ok true ->
        check_whitelist_blacklist
          line (PList (map PStr (l1 ++ e :: p :: l2))) PNone log
        = (Ok true, log))
  /\ (forall l1 l2 log,
        (forall q, In q (l1 ++ l2) -> expr_match line (PStr q) = Ok false) ->
        check_whitelist_blacklist
          line PNone (PList (map PStr (l1 ++ e :: l2))) log
        = (Ok true, log)
        /\ check_whitelist_blacklist
             line (PList (map PStr (l1 ++ e :: l2))) PNone log
           = (Ok false, log)).
Proof.
  intros Hne Hglob Hre.
  assert (He : expr_match line (PStr e) = Ok false).
  { rewrite expr_match_string, Hglob, Hre.
    now apply String.eqb_neq in Hne as ->. }
  assert (Hpre : forall l1,
             (forall q, In q l1 -> expr_match line (PStr q) = Ok false) ->
             forall q, In q (l1 ++ [e]) ->
                       expr_match line (PStr q) = Ok false).
  { intros l1 H q [Hq | [<- | []]]%in_app_or; auto. }
  assert (Hmid : forall l1 l2,
             (forall q, In q (l1 ++ l2) ->
                        expr_match line (PStr q) = Ok false) ->
             forall q, In q (l1 ++ e :: l2) ->
                       expr_match line (PStr q) = Ok false).
  { intros l1 l2 H q [Hq | [<- | Hq]]%in_app_or; auto;
      apply H, in_or_app; auto. }
  split; [exact He |]. split; [| split; [| split]].
  - intros Hno. split.
    + intros whitelist l1 l2 log.
      rewrite !check_whitelist_blacklist_blocks.
      cbn [bind Monad_M is_none negb].
      now rewrite (guarded_loop_without _ _ _ _ _ _ _ Hno He).
    + intros blacklist l1 l2 log Hl.
      rewrite !check_whitelist_blacklist_blocks. cbn [bind Monad_M].
      destruct ((if negb (is_none blacklist)
                 then guarded_loop line blacklist false
                        "Non-iterable blacklist %s"
                 else ret None) log) as [[[b |] | y] log1];
        try reflexivity.
      rewrite !truthy_strs by (try assumption; now destruct l1).
      now rewrite (guarded_loop_without _ _ _ _ _ _ _ Hno He).
  - intros whitelist l1 l2 p log H1 Hp.
    rewrite check_whitelist_blacklist_blocks.
    cbn [bind Monad_M is_none negb].
    replace (l1 ++ e :: p :: l2)%list with ((l1 ++ [e]) ++ p :: l2)%list
      by now rewrite <- app_assoc.
    rewrite (guarded_loop_list _ _ _ _ _ _
               (for_expr_match_first_true _ _ _ _ _ (Hpre l1 H1) Hp)).
    reflexivity.
  - intros l1 l2 p log H1 Hp.
    rewrite check_whitelist_blacklist_blocks.
    cbn [bind Monad_M is_none negb ret].
    assert (Ht : truthy (PList (map PStr (l1 ++ e :: p :: l2))) = true)
      by now destruct l1.
    rewrite Ht.
    replace (l1 ++ e :: p :: l2)%list with ((l1 ++ [e]) ++ p :: l2)%list
      by now rewrite <- app_assoc.
    rewrite (guarded_loop_list _ _ _ _ _ _
               (for_expr_match_first_true _ _ _ _ _ (Hpre l1 H1) Hp)).
    reflexivity.
  - intros l1 l2 log H. split.
    + rewrite check_whitelist_blacklist_blocks.
      cbn [bind Monad_M is_none negb].
      rewrite (guarded_loop_list _ _ _ _ _ _
                 (for_expr_match_all_false _ _ _ (Hmid l1 l2 H))).
      reflexivity.
    + rewrite check_whitelist_blacklist_blocks.
      cbn [bind Monad_M is_none negb ret].
      assert (Ht : truthy (PList (map PStr (l1 ++ e :: l2))) = true)
        by now destruct l1.
      rewrite Ht.
      rewrite (guarded_loop_list _ _ _ _ _ _
                 (for_expr_match_all_false _ _ _ (Hmid l1 l2 H))).
      reflexivity.
Qed.






End RunRobustness.

Section Robustness.

Context {L : PyLib}.

(** With a library that raises nothing but [re.error], a guarded loop
    returns: it either leaves the function with [r], or falls through,
    with or without a record in the log. *)
Lemma guarded_loop_outcome value set r message log :
  exists o log',
    guarded_loop value set r message log = (Ok o, log')
    /\ (o = Some r \/ o = None).
Proof.
  unfold guarded_loop, try_except, lift.
  set (v := if negb (hasattr_iter run_PY3 set) then PList [set] else set).
  cbn.
  destruct (iter_outcome v) as [[items ->] | ->]; cbn.
  - destruct (for_expr_match_outcome value items r) as [[o Ho] | Ho];
      rewrite Ho; cbn.
    + exists o, log. split; [reflexivity |].
      destruct o as [b |]; [left | now right].
      now rewrite (for_expr_match_some _ _ _ _ Ho).
    + eexists _, _. split; [reflexivity | now right].
  - eexists _, _. split; [reflexivity | now right].
Qed.

Lemma blacklist_block_outcome value blacklist log :
  exists o log',
    (if negb (is_none blacklist)
     then guarded_loop value blacklist false "Non-iterable blacklist %s"
     else ret None) log = (Ok o, log')
    /\ (o = Some false \/ o = None).
Proof.
  destruct (negb (is_none blacklist)).
  - apply guarded_loop_outcome.
  - exists None, log. split; [reflexivity | now right].
Qed.

End Robustness.

(** A library that refuses the repeat count of [a{4294967295}] with
    [OverflowError], as [re] does, and is the reference library on every
    other pattern. *)
Definition overflow_compile (pat : string) : result RefLib.regex :=
  if String.eqb pat "\Aa{4294967295}\Z" || String.eqb pat "a{4294967295}"
  then Raise (OtherError "OverflowError")
  else compile_of ref_lib pat.

Definition overflow_lib : PyRun :=
  {| run_PY3 := true;
     run_fnmatch := RefLib.fnmatch;
     run_pattern := RefLib.regex;
     run_compile := overflow_compile;
     run_match := fun r s => RefLib.match_at true s r;
     run_search := fun r s => RefLib.search_at true s r;
     run_marker := compile_of_marker ref_lib |}.

(** The pattern [(] is not a regular expression, and as a candidate it
    is equal to itself: [expr_match] returns [True] by the first stage.
    The shell pattern [*(] matches the candidate [a(], and is no regular
    expression either.  And where [re] refuses a pattern with an
    exception that is not [re.error], [expr_match] raises it. *)
Lemma invalid_regex_matches_itself :
  (RefLib.parse ("\A" ++ "(" ++ "\Z") = RefLib.Invalid
   /\ expr_match (L := ref_lib) "(" (PStr "(") = Ok true)
  /\ (RefLib.parse ("\A" ++ "*(" ++ "\Z") = RefLib.Invalid
      /\ expr_match (L := ref_lib) "a(" (PStr "*(") = Ok true)
  /\ expr_match (L := overflow_lib) "x" (PStr "a{4294967295}")
     = Raise (OtherError "OverflowError").
Proof. repeat split; vm_compute; reflexivity. Qed.

Lemma invalid_regex_is_non_match_witness :
  ("a" <> "("
   /\ RefLib.fnmatch "a" "(" = false
   /\ compile_of ref_lib ("\A" ++ "(" ++ "\Z") = Raise ReError)
  /\ expr_match (L := ref_lib) "a" (PStr "(") = Ok false
  /\ check_whitelist_blacklist (L := ref_lib)
       "a" PNone (PList (map PStr (["b"] ++ "(" :: ["a"]))) []
     = check_whitelist_blacklist (L := ref_lib)
         "a" PNone (PList (map PStr (["b"] ++ ["a"]))) []
  /\ check_whitelist_blacklist (L := ref_lib)
       "a" (PList (map PStr ([] ++ "(" :: "a" :: []))) PNone []
     = (Ok true, []).
Proof.
  assert (H1 : "a" <> "(") by discriminate.
  assert (H2 : run_fnmatch (PyRun := ref_lib) "a" "(" = false)
    by (vm_compute; reflexivity).
  assert (H3 : run_compile (PyRun := ref_lib) ("\A" ++ "(" ++ "\Z")
               = Raise ReError)
    by (vm_compute; reflexivity).
  assert (H4 : forall p, run_compile (PyRun := ref_lib) p <> Raise TypeError).
  { intros p. cbn [run_compile run_of]. unfold compile_of.
    destruct (re_compile p); discriminate. }
  split; [repeat split; assumption |].
  pose proof (invalid_regex_is_non_match (L := ref_lib) "a" "(" H1 H2 H3)
    as (Ha & Hout & _ & Hw & _).
  split; [exact Ha | split].
  - exact (proj1 (Hout H4) PNone ["b"] ["a"] []).
  - apply (Hw [] [] "a" []).
    + intros q [].
    + vm_compute. reflexivity.
Defined.





(** * Further properties of the three functions *)

Section MoreOnPatternSets.

Context {L : PyRun}.

Lemma for_expr_match_returns value l r :
  (forall p, In p l -> exists b, expr_match value (PStr p) = Ok b) ->
  for_expr_match value (map PStr l) r
  = Ok (if existsb (matches value) l then Some r else None).
Proof.
  induction l as [| p l IH]; intros H; [reflexivity |].
  cbn [map for_expr_match existsb].
  destruct (H p (or_introl eq_refl)) as [b Hb].
  rewrite Hb, (expr_match_returns _ _ _ Hb). cbn.
  destruct b; [reflexivity |].
  apply IH. intros q Hq. apply H. now right.
Qed.

Lemma blacklist_block_returns value bl log :
  (forall p, In p (patterns_of bl) ->
             exists b, expr_match value (PStr p) = Ok b) ->
  (if negb (is_none (pattern_set bl))
   then guarded_loop value (pattern_set bl) false "Non-iterable blacklist %s"
   else ret None) log
  = (Ok (if existsb (matches value) (patterns_of bl)
         then Some false else None), log).
Proof.
  intros H. destruct bl as [bl |];
    cbn [pattern_set patterns_of is_none negb existsb]; [| reflexivity].
  apply guarded_loop_list. now apply for_expr_match_returns.
Qed.

Lemma whitelist_block_returns value wl log :
  (forall p, In p (patterns_of wl) ->
             exists b, expr_match value (PStr p) = Ok b) ->
  (if truthy (pattern_set wl)
   then guarded_loop value (pattern_set wl) true "Non-iterable whitelist %s"
   else ret (Some true)) log
  = (Ok (if is_nil (patterns_of wl)
            || existsb (matches value) (patterns_of wl)
         then Some true else None), log).
Proof.
  intros H. destruct wl as [[| p wl] |]; try reflexivity.
  cbn [pattern_set patterns_of is_nil orb].
  assert (Ht : truthy (PList (map PStr (p :: wl))) = true) by reflexivity.
  rewrite Ht.
  apply guarded_loop_list. now apply for_expr_match_returns.
Qed.


Lemma check_whitelist_blacklist_returning value whitelist blacklist log :
  (forall p, In p (patterns_of blacklist) ->
             exists b, expr_match value (PStr p) = Ok b) ->
  (forall p, In p (patterns_of whitelist) ->
             exists b, expr_match value (PStr p) = Ok b) ->
  check_whitelist_blacklist
    value (pattern_set whitelist) (pattern_set blacklist) log
  = (Ok (negb (existsb (matches value) (patterns_of blacklist))
         && (is_nil (patterns_of whitelist)
             || existsb (matches value) (patterns_of whitelist))),
     log).
Proof.
  intros Hb Hw.
  rewrite check_whitelist_blacklist_blocks. cbn [bind Monad_M].
  rewrite (blacklist_block_returns value blacklist log Hb).
  destruct (existsb (matches value) (patterns_of blacklist));
    [reflexivity |].
  rewrite (whitelist_block_returns value whitelist log Hw).
  now destruct (is_nil (patterns_of whitelist)
                || existsb (matches value) (patterns_of whitelist)).
Qed.

(** X1. On pattern sets whose patterns [expr_match] all returns on, the
    decision is: no blacklist pattern matches, and the whitelist is
    absent, empty, or has a pattern that matches; nothing is raised and
    nothing is logged. *)
Theorem pattern_set_decision
    (value : string) (whitelist blacklist : option (list string))
    (log : list log_record) :
  (forall p, In p (patterns_of blacklist) ->
             exists b, expr_match value (PStr p) = Ok b) ->
  (forall p, In p (patterns_of whitelist) ->
             exists b, expr_match value (PStr p) = Ok b) ->
  check_whitelist_blacklist
    value (pattern_set whitelist) (pattern_set blacklist) log
  = (Ok (negb (existsb (matches value) (patterns_of blacklist))
         && (is_nil (patterns_of whitelist)
             || existsb (matches value) (patterns_of whitelist))),
     log).
Proof. apply check_whitelist_blacklist_returning. Qed.

Lemma existsb_same_members {A : Type} (f : A -> bool) (l l' : list A) :
  (forall x, In x l <-> In x l') -> existsb f l = existsb f l'.
Proof.
  intros H. apply eq_true_iff_eq. rewrite !existsb_exists.
  split; intros [x [Hin Hx]]; exists x; split; auto; now apply H.
Qed.

Lemma is_nil_same_members {A : Type} (l l' : list A) :
  (forall x, In x l <-> In x l') -> is_nil l = is_nil l'.
Proof.
  intros H. destruct l as [| a l], l' as [| a' l']; try reflexivity.
  - destruct (proj2 (H a') (or_introl eq_refl)).
  - destruct (proj1 (H a) (or_introl eq_refl)).
Qed.

(** X2. When [expr_match] returns on every pattern, neither the order
    of the patterns nor their repetition matters: two whitelists with the
    same members and two blacklists with the same members give the same
    result. *)
Theorem pattern_order_irrelevant
    (value : string) (wl wl' bl bl' : list string) (log : list log_record) :
  (forall p, In p (bl ++ wl) -> exists b, expr_match value (PStr p) = Ok b) ->
  (forall p, In p wl <-> In p wl') ->
  (forall p, In p bl <-> In p bl') ->
  check_whitelist_blacklist
    value (PList (map PStr wl)) (PList (map PStr bl)) log
  = check_whitelist_blacklist
      value (PList (map PStr wl')) (PList (map PStr bl')) log.
Proof.
  intros Hr Hw Hb.
  rewrite (check_whitelist_blacklist_returning value (Some wl) (Some bl)).
  2: { intros p Hp. apply Hr, in_or_app. now left. }
  2: { intros p Hp. apply Hr, in_or_app. now right. }
  rewrite (check_whitelist_blacklist_returning value (Some wl') (Some bl')).
  2: { intros p Hp. apply Hr, in_or_app. left. now apply Hb. }
  2: { intros p Hp. apply Hr, in_or_app. right. now apply Hw. }
  cbn [patterns_of].
  now rewrite (existsb_same_members _ _ _ Hw), (existsb_same_members _ _ _ Hb),
    (is_nil_same_members _ _ Hw).
Qed.


End MoreOnPatternSets.

Section MoreOnMalformedSets.

Context {L : PyLib}.





Lemma chars_strs s :
  chars s = map PStr (map (fun c => String c "") (list_ascii_of_string s)).
Proof. induction s as [| c s IH]; cbn; [reflexivity | now rewrite IH]. Qed.

Lemma guarded_loop_chars value w r message log :
  PY3 = true ->
  guarded_loop value (PStr w) r message log
  = guarded_loop value (PList (chars w)) r message log.
Proof.
  intros Hpy. unfold guarded_loop, try_except, lift.
  cbn [hasattr_iter run_PY3 run_of]. rewrite Hpy. cbn.
  rewrite chars_strs, for_expr_match_strs. reflexivity.
Qed.

Lemma guarded_loop_single value w r message log :
  PY3 = false ->
  guarded_loop value (PStr w) r message log
  = guarded_loop value (PList [PStr w]) r message log.
Proof.
  intros Hpy. unfold guarded_loop. cbn [hasattr_iter run_PY3 run_of].
  now rewrite Hpy.
Qed.

Lemma string_whitelist_py3 value w blacklist log :
  PY3 = true ->
  check_whitelist_blacklist value (PStr w) blacklist log
  = check_whitelist_blacklist value (PList (chars w)) blacklist log.
Proof.
  intros Hpy. rewrite !check_whitelist_blacklist_blocks.
  cbn [bind Monad_M].
  destruct (blacklist_block_outcome value blacklist log)
    as (o & log' & -> & _).
  destruct o; [reflexivity |].
  assert (Ht : truthy (PStr w) = truthy (PList (chars w)))
    by now destruct w.
  rewrite Ht. destruct (truthy (PList (chars w))); [| reflexivity].
  now rewrite guarded_loop_chars.
Qed.

(** X4. A string in the place of a pattern set.  On Python 2 it is one
    pattern; on Python 3, where [str] has [__iter__], each of its
    characters is a pattern of its own. *)
Theorem string_as_pattern_set
    (value w : string) (log : list log_record) :
  (PY3 = false ->
   (forall whitelist,
       check_whitelist_blacklist value whitelist (PStr w) log
       = check_whitelist_blacklist value whitelist (PList [PStr w]) log)
   /\ (forall blacklist,
         w <> "" ->
         check_whitelist_blacklist value (PStr w) blacklist log
         = check_whitelist_blacklist value (PList [PStr w]) blacklist log))
  /\ (PY3 = true ->
      (forall whitelist,
          check_whitelist_blacklist value whitelist (PStr w) log
          = check_whitelist_blacklist value whitelist (PList (chars w)) log)
      /\ (forall blacklist,
            check_whitelist_blacklist value (PStr w) blacklist log
            = check_whitelist_blacklist
                value (PList (chars w)) blacklist log)).
Proof.
  split; intros Hpy; split.
  - intros whitelist. rewrite !check_whitelist_blacklist_blocks.
    cbn [bind Monad_M is_none negb].
    now rewrite guarded_loop_single.
  - intros blacklist Hw. rewrite !check_whitelist_blacklist_blocks.
    cbn [bind Monad_M].
    destruct (blacklist_block_outcome value blacklist log)
      as (o & log' & -> & _).
    destruct o; [reflexivity |].
    cbn [truthy]. apply String.eqb_neq in Hw. rewrite Hw. cbn [negb].
    now rewrite guarded_loop_single.
  - intros whitelist. rewrite !check_whitelist_blacklist_blocks.
    cbn [bind Monad_M is_none negb].
    now rewrite guarded_loop_chars.
  - intros blacklist. now apply string_whitelist_py3.
Qed.

End MoreOnMalformedSets.

Module RefLibMoreFacts.
Import RefLib.



End RefLibMoreFacts.

Section MoreOnStrings.

Context {L : PyLib}.


(** X7. The two patterns of [check_include_exclude] act independently:
    when the call with the include pattern alone returns [bi] and the
    call with the exclude pattern alone returns [be], the call with both
    returns [bi and be]. *)
Theorem include_exclude_compose
    (path_str : string) (include_pat exclude_pat : option string)
    (bi be : bool) :
  check_include_exclude path_str include_pat None = Ok bi ->
  check_include_exclude path_str None exclude_pat = Ok be ->
  check_include_exclude path_str include_pat exclude_pat = Ok (bi && be).
Proof.
  rewrite !include_exclude_equation. unfold include_exclude_policy.
  cbn [supplied].
  destruct (supplied include_pat) as [i |], (supplied exclude_pat) as [e |];
    cbn.
  - intros ->. destruct (two_mode_match path_str e) as [b |]; cbn;
      [| discriminate].
    now intros [= <-].
  - intros -> [= <-]. now rewrite andb_true_r.
  - intros [= <-]. destruct (two_mode_match path_str e) as [b |]; cbn;
      [| discriminate].
    now intros [= <-].
  - now intros [= <-] [= <-].
Qed.

(** X8. One pattern used to include and used to exclude gives opposite
    answers, and used for both at once admits nothing. *)
Theorem include_exclude_duality (path_str pat : string) (b : bool) :
  pat <> "" ->
  check_include_exclude path_str (Some pat) None = Ok b ->
  check_include_exclude path_str None (Some pat) = Ok (negb b)
  /\ check_include_exclude path_str (Some pat) (Some pat) = Ok false.
Proof.
  intros Hne%String.eqb_neq.
  rewrite !include_exclude_equation. unfold include_exclude_policy.
  cbn [supplied]. rewrite Hne. intros ->. cbn.
  split; [reflexivity | now destruct b].
Qed.

End MoreOnStrings.

Lemma pattern_order_irrelevant_witness :
  check_whitelist_blacklist (L := ref_lib)
    "minion01" (PList (map PStr ["web*"; "minion*"]))
    (PList (map PStr ["db1"; "db2"; "db1"])) []
  = check_whitelist_blacklist (L := ref_lib)
      "minion01" (PList (map PStr ["minion*"; "web*"; "minion*"]))
      (PList (map PStr ["db2"; "db1"])) [].
Proof.
  apply (pattern_order_irrelevant (L := ref_lib)).
  - intros p Hp. cbn [In app] in Hp.
    repeat destruct Hp as [<- | Hp]; try contradiction;
      eexists; vm_compute; reflexivity.
  - intros p; cbn [In]; tauto.
  - intros p; cbn [In]; tauto.
Defined.


Lemma string_as_pattern_set_witness :
  check_whitelist_blacklist (L := ref_lib_py2) "web1" (PStr "web*") PNone []
  = check_whitelist_blacklist (L := ref_lib_py2)
      "web1" (PList [PStr "web*"]) PNone []
  /\ check_whitelist_blacklist (L := ref_lib) "web1" (PStr "web?") PNone []
     = check_whitelist_blacklist (L := ref_lib)
         "web1" (PList (chars "web?")) PNone [].
Proof.
  split.
  - refine (proj2 (proj1 (string_as_pattern_set (L := ref_lib_py2)
                            "web1" "web*" []) eq_refl) PNone _).
    discriminate.
  - exact (proj2 (proj2 (string_as_pattern_set (L := ref_lib)
                           "web1" "web?" []) eq_refl) PNone).
Defined.


Lemma include_exclude_compose_witness :
  check_include_exclude (L := ref_lib)
    "/etc/debian_chroot" (Some "E@chroot") (Some "*.bak") = Ok (true && true).
Proof.
  apply (include_exclude_compose (L := ref_lib)); vm_compute; reflexivity.
Defined.

Lemma include_exclude_duality_witness :
  check_include_exclude (L := ref_lib) "/etc/fstab" None (Some "*.bak")
  = Ok (negb false)
  /\ check_include_exclude (L := ref_lib)
       "/etc/fstab" (Some "*.bak") (Some "*.bak") = Ok false.
Proof.
  apply (include_exclude_duality (L := ref_lib));
    [discriminate | vm_compute; reflexivity].
Defined.

(** * Properties of the other helpers *)

Module HelpersFacts.
Import Helpers.

Lemma but_last_snoc s c : but_last (s ++ String c "") = s.
Proof.
  induction s as [| a s IH]; [reflexivity |].
  cbn [append but_last]. rewrite IH.
  now destruct s.
Qed.

Lemma last_char_snoc s c : last_char (s ++ String c "") = Some c.
Proof.
  induction s as [| a s IH]; [reflexivity |].
  cbn [append last_char]. rewrite IH.
  now destruct s.
Qed.

Lemma last_char_nonempty s : s <> "" -> exists c, last_char s = Some c.
Proof.
  induction s as [| a s IH]; [contradiction |]. intros _.
  destruct s as [| b s]; [now exists a |].
  destruct IH as [c Hc]; [discriminate |]. exists c. exact Hc.
Qed.

Lemma snoc_of_nonempty s :
  s <> "" -> exists d c, s = d ++ String c "".
Proof.
  induction s as [| a s IH]; [contradiction |]. intros _.
  destruct s as [| b s].
  - now exists "", a.
  - destruct IH as (d & c & ->); [discriminate |].
    now exists (String a d), c.
Qed.

Lemma int_of_digits_nonneg s :
  forall acc, (0 <= acc)%Z -> (0 <= int_of_digits acc s)%Z.
Proof.
  induction s as [| c s IH]; intros acc Hacc; cbn [int_of_digits];
    [assumption |].
  apply IH. unfold digit_value. lia.
Qed.

Lemma unit_factor_cases unit :
  exists k, (0 <= k)%Z /\ unit_factor unit = (k * 1048576)%Z.
Proof.
  unfold unit_factor.
  destruct (Ascii.eqb unit "P"); [exists 1073741824%Z; lia |].
  destruct (Ascii.eqb unit "T"); [exists 1048576%Z; lia |].
  destruct (Ascii.eqb unit "G"); [exists 1024%Z; lia |].
  destruct (Ascii.eqb unit "M"); [exists 1%Z; lia |].
  exists 0%Z. lia.
Qed.

(** The function, on a string split into its last character and what is
    before it. *)
Lemma human_to_bytes_on_snoc max_str_digits d unit :
  human_to_bytes_on max_str_digits (d ++ String unit "")
  = if isdigit d
    then match py_int max_str_digits d with
         | Returns n => Returns (n * unit_factor unit)%Z
         | Raises e => Raises e
         end
    else Returns 0%Z.
Proof.
  unfold human_to_bytes_on, unit_factor.
  rewrite but_last_snoc, last_char_snoc.
  destruct (isdigit d); [| reflexivity].
  destruct (py_int max_str_digits d) as [n | e]; [| reflexivity].
  destruct (Ascii.eqb unit "P"); [reflexivity |].
  destruct (Ascii.eqb unit "T"); [reflexivity |].
  destruct (Ascii.eqb unit "G"); [reflexivity |].
  destruct (Ascii.eqb unit "M"); [reflexivity |].
  now rewrite Z.mul_0_r.
Qed.

Lemma py_int_outcome max_str_digits s :
  py_int max_str_digits s = Raises ValueError
  \/ exists n, (0 <= n)%Z /\ py_int max_str_digits s = Returns n.
Proof.
  unfold py_int.
  destruct (isdecimal s && negb (over_limit max_str_digits s));
    [right | now left].
  eexists. split; [| reflexivity].
  now apply int_of_digits_nonneg.
Qed.

Lemma py_int_raises max_str_digits s :
  py_int max_str_digits s = Raises ValueError
  <-> isdecimal s = false \/ over_limit max_str_digits s = true.
Proof.
  unfold py_int.
  destruct (isdecimal s), (over_limit max_str_digits s); cbn;
    split; auto; try discriminate; intros [H | H]; discriminate.
Qed.

Lemma all_decimal_digits s : all_decimal s = true -> all_digits s = true.
Proof.
  induction s as [| c s IH]; [reflexivity |].
  cbn [all_decimal all_digits]. intros [Hc Hs]%andb_true_iff.
  unfold is_digit_char. now rewrite Hc, IH.
Qed.

Lemma isdecimal_isdigit s : isdecimal s = true -> isdigit s = true.
Proof.
  unfold isdecimal, isdigit. intros [-> H]%andb_true_iff.
  now rewrite all_decimal_digits.
Qed.

Lemma all_decimal_snoc d c :
  all_decimal (d ++ String c "") = true -> all_decimal d = true.
Proof.
  induction d as [| a d IH]; [reflexivity |].
  cbn [append all_decimal]. intros [-> H]%andb_true_iff. now apply IH.
Qed.

(** X9. [human_to_bytes] raises [IndexError] on the empty string.  On
    every other string it raises [ValueError] or returns a number of
    bytes that is not negative and is a whole number of mebibytes.  It
    raises [ValueError] exactly when [isdigit] holds for the part before
    the last character and [int] refuses that part: one of its digits is
    not a decimal digit (a superscript two, say), or there are more of
    them than the interpreter converts. *)
Theorem human_to_bytes_outcome (max_str_digits : N) (size : string) :
  (size = "" -> human_to_bytes_on max_str_digits size = Raises IndexError)
  /\ (size <> "" ->
      human_to_bytes_on max_str_digits size = Raises ValueError
      \/ exists k, (0 <= k)%Z
                   /\ human_to_bytes_on max_str_digits size
                      = Returns (k * 1048576)%Z)
  /\ (human_to_bytes_on max_str_digits size = Raises ValueError
      <-> isdigit (but_last size) = true
          /\ (isdecimal (but_last size) = false
              \/ over_limit max_str_digits (but_last size) = true)).
Proof.
  split; [now intros -> | split].
  - intros (d & unit & ->)%snoc_of_nonempty.
    rewrite human_to_bytes_on_snoc.
    destruct (isdigit d);
      [| right; exists 0%Z; split; [lia | reflexivity]].
    destruct (py_int_outcome max_str_digits d) as [-> | (n & Hn & ->)];
      [now left | right].
    destruct (unit_factor_cases unit) as (k & Hk & ->).
    exists (n * k)%Z. split.
    + now apply Z.mul_nonneg_nonneg.
    + f_equal. ring.
  - destruct size as [| a size'].
    + cbn. split; [discriminate | intros [H _]; discriminate].
    + destruct (snoc_of_nonempty (String a size')) as (d & unit & ->);
        [discriminate |].
      rewrite human_to_bytes_on_snoc, but_last_snoc.
      rewrite <- py_int_raises.
      destruct (isdigit d).
      * destruct (py_int max_str_digits d) as [n | e].
        -- split; [discriminate | intros [_ H]; discriminate].
        -- split; [intros H; split; [reflexivity | exact H]
                  | now intros [_ H]].
      * split; [discriminate | intros [H _]; discriminate].
Qed.

Lemma all_decimal_uint d :
  all_decimal (DecimalString.NilEmpty.string_of_uint d) = true.
Proof. induction d; cbn; auto. Qed.

Lemma int_of_digits_uint d :
  forall acc,
    int_of_digits (Z.of_N (DecimalPos.Unsigned.of_lu acc))
      (DecimalString.NilEmpty.string_of_uint d)
    = Z.of_N (DecimalPos.Unsigned.of_lu (Decimal.revapp d acc)).
Proof.
  induction d; intros acc; cbn [DecimalString.NilEmpty.string_of_uint
                                int_of_digits Decimal.revapp];
    [reflexivity | ..];
    rewrite <- IHd; f_equal;
    cbn [DecimalPos.Unsigned.of_lu];
    generalize (DecimalPos.Unsigned.of_lu acc); intros x;
    match goal with
    | |- context [digit_value ?c] =>
        let v := eval vm_compute in (digit_value c) in
        change (digit_value c) with v
    end; lia.
Qed.

Lemma py_str_nat_digits n :
  isdecimal (py_str_nat n) = true
  /\ int_of_digits 0 (py_str_nat n) = Z.of_N n.
Proof.
  unfold py_str_nat, DecimalString.NilZero.string_of_uint.
  assert (Hnn : N.to_uint n <> Decimal.Nil).
  { destruct n; [discriminate | apply DecimalPos.Unsigned.to_uint_nonnil]. }
  assert (Hs : match N.to_uint n with
               | Decimal.Nil => "0"
               | _ => DecimalString.NilEmpty.string_of_uint (N.to_uint n)
               end = DecimalString.NilEmpty.string_of_uint (N.to_uint n))
    by (destruct (N.to_uint n); [contradiction | reflexivity ..]).
  rewrite Hs. split.
  - unfold isdecimal. rewrite all_decimal_uint, andb_true_r.
    destruct (N.to_uint n); [contradiction | reflexivity ..].
  - change 0%Z with (Z.of_N (DecimalPos.Unsigned.of_lu Decimal.Nil)).
    rewrite int_of_digits_uint.
    change (Decimal.revapp (N.to_uint n) Decimal.Nil)
      with (Decimal.rev (N.to_uint n)).
    rewrite <- DecimalPos.Unsigned.of_uint_alt.
    change (Pos.of_uint (N.to_uint n)) with (N.of_uint (N.to_uint n)).
    now rewrite DecimalN.Unsigned.of_to.
Qed.

(** X10. A natural number written in decimal and followed by a unit
    letter: [human_to_bytes] returns the number times [2^50], [2^40],
    [2^30] or [2^20] for [P], [T], [G] or [M], and [0] for any other
    letter. *)
Theorem human_to_bytes_decimal (n : N) (unit : ascii) :
  human_to_bytes (py_str_nat n ++ String unit "")
  = Returns (Z.of_N n * (if Ascii.eqb unit "P" then 2 ^ 50
                         else if Ascii.eqb unit "T" then 2 ^ 40
                         else if Ascii.eqb unit "G" then 2 ^ 30
                         else if Ascii.eqb unit "M" then 2 ^ 20
                         else 0))%Z.
Proof.
  unfold human_to_bytes. rewrite human_to_bytes_on_snoc.
  destruct (py_str_nat_digits n) as [Hd Hn].
  rewrite (isdecimal_isdigit _ Hd). unfold py_int, over_limit.
  rewrite Hd, Hn. reflexivity.
Qed.

(** X22. The same with a limit on the number of digits that [int]
    converts: a natural number written with more digits than the limit
    makes [human_to_bytes] raise [ValueError], whatever the unit, and any
    other one is converted as without a limit. *)
Theorem human_to_bytes_decimal_on (max_str_digits n : N) (unit : ascii) :
  human_to_bytes_on max_str_digits (py_str_nat n ++ String unit "")
  = if over_limit max_str_digits (py_str_nat n)
    then Raises ValueError
    else Returns (Z.of_N n * unit_factor unit)%Z.
Proof.
  rewrite human_to_bytes_on_snoc.
  destruct (py_str_nat_digits n) as [Hd Hn].
  rewrite (isdecimal_isdigit _ Hd). unfold py_int.
  rewrite Hd, Hn.
  now destruct (over_limit max_str_digits (py_str_nat n)).
Qed.

Lemma all_digits_last s c :
  all_digits s = true -> last_char s = Some c -> is_digit_char c = true.
Proof.
  induction s as [| a s IH]; [discriminate |].
  cbn [all_digits last_char]. intros [Ha Hs]%andb_true_iff.
  destruct s as [| b s]; [now intros [= <-] | now apply IH].
Qed.

Lemma digit_is_no_unit c : is_digit_char c = true -> unit_factor c = 0%Z.
Proof.
  unfold unit_factor. intros H.
  destruct (Ascii.eqb_spec c "P") as [-> |]; [discriminate H |].
  destruct (Ascii.eqb_spec c "T") as [-> |]; [discriminate H |].
  destruct (Ascii.eqb_spec c "G") as [-> |]; [discriminate H |].
  destruct (Ascii.eqb_spec c "M") as [-> |]; [discriminate H |].
  reflexivity.
Qed.

(** X11. What [human_to_bytes] turns into [0]: a string whose part
    before the last character [isdigit] does not hold for (a sign, a
    decimal point, a blank, or nothing at all before the unit), and a
    number written in decimal digits without a unit, when [int] converts
    the digits before its last one. *)
Theorem human_to_bytes_zero (max_str_digits : N) :
  (forall d unit,
      isdigit d = false ->
      human_to_bytes_on max_str_digits (d ++ String unit "") = Returns 0%Z)
  /\ (forall size,
        isdecimal size = true ->
        over_limit max_str_digits (but_last size) = false ->
        human_to_bytes_on max_str_digits size = Returns 0%Z).
Proof.
  split.
  - intros d unit Hd. now rewrite human_to_bytes_on_snoc, Hd.
  - intros size Hs Hlim.
    pose proof (isdecimal_isdigit _ Hs) as Hdig.
    unfold isdigit in Hdig. apply andb_true_iff in Hdig as [Hne Hall].
    unfold isdecimal in Hs. apply andb_true_iff in Hs as [_ Hdec].
    assert (Hsize : size <> "") by now destruct size.
    destruct (snoc_of_nonempty size Hsize) as (d & c & ->).
    rewrite but_last_snoc in Hlim.
    apply all_decimal_snoc in Hdec.
    rewrite human_to_bytes_on_snoc.
    destruct (isdigit d) eqn:Hd; [| reflexivity].
    rewrite digit_is_no_unit
      by (apply (all_digits_last _ _ Hall); apply last_char_snoc).
    unfold isdigit in Hd. apply andb_true_iff in Hd as [Hd _].
    unfold py_int, isdecimal. rewrite Hd, Hdec, Hlim. cbn.
    now rewrite Z.mul_0_r.
Qed.

End HelpersFacts.

Module QuoteFacts.
Import Helpers.

Lemma last_char_cons c s :
  s <> "" -> last_char (String c s) = last_char s.
Proof. destruct s; [contradiction | reflexivity]. Qed.

Lemma snoc_nonempty s c : s ++ String c "" <> "".
Proof. destruct s; discriminate. Qed.

(** X12. Round trip with quoting: a string put between two single or
    between two double quotes is given back by [dequote]; a quote
    character alone counts as quoted and becomes the empty string. *)
Theorem dequote_quoted (q : ascii) (s : string) :
  is_quote_char q = true ->
  dequote (PStr (String q (s ++ String q ""))) = Returns (PStr s)
  /\ dequote (PStr (String q "")) = Returns (PStr "").
Proof.
  intros Hq. unfold dequote, is_quoted. split.
  - cbn [first_char].
    rewrite last_char_cons by apply snoc_nonempty.
    rewrite HelpersFacts.last_char_snoc, Ascii.eqb_refl.
    cbn [starts_with_quote andb]. rewrite Hq.
    cbn [nonempty slice_inner but_first].
    now rewrite HelpersFacts.but_last_snoc.
  - cbn [first_char last_char]. rewrite Ascii.eqb_refl.
    cbn [starts_with_quote andb]. rewrite Hq. reflexivity.
Qed.

(** X13. [dequote] raises on the empty string, with [IndexError], and
    on nothing else.  It returns its argument as it is when the argument
    is not a string, and when it is a string whose first and last
    characters differ or are no quote. *)
Theorem dequote_unquoted (value : pyval) :
  (dequote value = Raises IndexError <-> value = PStr "")
  /\ (forall e, dequote value = Raises e -> e = IndexError)
  /\ (is_str value = false -> dequote value = Returns value)
  /\ (forall s f l,
        value = PStr s ->
        first_char s = Some f ->
        last_char s = Some l ->
        f <> l \/ is_quote_char f = false ->
        dequote value = Returns value).
Proof.
  assert (Hstr : forall s, s <> "" ->
                   exists p, dequote (PStr s) = Returns p).
  { intros s Hs. unfold dequote, is_quoted.
    destruct s as [| c s]; [contradiction |].
    cbn [first_char].
    destruct (HelpersFacts.last_char_nonempty (String c s)) as [l ->];
      [discriminate |].
    destruct (Ascii.eqb c l && starts_with_quote (String c s));
      cbn [nonempty slice_inner]; eauto. }
  split; [| split; [| split]].
  - split.
    + destruct value as [| b | z | s | l]; try discriminate.
      destruct (String.eqb_spec s "") as [-> | Hs]; [reflexivity |].
      destruct (Hstr s Hs) as [p ->]. discriminate.
    + now intros ->.
  - intros e. destruct value as [| b | z | s | l]; try discriminate.
    destruct (String.eqb_spec s "") as [-> | Hs].
    + now intros [= <-].
    + destruct (Hstr s Hs) as [p ->]. discriminate.
  - now destruct value.
  - intros s f l -> Hf Hl Hd. unfold dequote, is_quoted.
    rewrite Hf, Hl.
    destruct s as [| c s]; [discriminate |].
    injection Hf as ->. cbn [starts_with_quote].
    destruct Hd as [Hne | Hq].
    + destruct (Ascii.eqb_spec f l); [contradiction | reflexivity].
    + now rewrite Hq, andb_false_r.
Qed.

End QuoteFacts.

Lemma dequote_quoted_witness :
  Helpers.is_quote_char "'" = true
  /\ Helpers.dequote (PStr (String "'" ("it is" ++ String "'" "")))
     = Helpers.Returns (PStr "it is").
Proof.
  split; [reflexivity |].
  exact (proj1 (QuoteFacts.dequote_quoted "'" "it is" eq_refl)).
Defined.

Lemma dequote_unquoted_witness :
  Helpers.dequote (PStr "'abc") = Helpers.Returns (PStr "'abc").
Proof.
  refine (proj2 (proj2 (proj2 (QuoteFacts.dequote_unquoted (PStr "'abc"))))
            "'abc" "'"%char "c"%char eq_refl eq_refl eq_refl _).
  left. discriminate.
Defined.

Module WhitespaceFacts.
Import Helpers.

Section WithIsspace.

Variable isspace : ascii -> bool.

Lemma rstrip_empty s : rstrip isspace s = "" <-> all_space isspace s = true.
Proof.
  unfold all_space.
  induction s as [| c s IH]; cbn [rstrip list_ascii_of_string forallb].
  - tauto.
  - destruct (rstrip isspace s) as [| a r].
    + destruct (isspace c); cbn [andb].
      * split; [intros _; now apply IH | reflexivity].
      * split; discriminate.
    + split; [discriminate |].
      intros [_ Hs]%andb_true_iff. apply IH in Hs. discriminate.
Qed.

Lemma lstrip_all_space s :
  all_space isspace (lstrip isspace s) = all_space isspace s.
Proof.
  unfold all_space.
  induction s as [| c s IH]; [reflexivity |].
  cbn [lstrip]. destruct (isspace c) eqn:E.
  - cbn [list_ascii_of_string forallb]. now rewrite E.
  - reflexivity.
Qed.

Lemma strip_empty s : strip isspace s = "" <-> all_space isspace s = true.
Proof. unfold strip. now rewrite rstrip_empty, lstrip_all_space. Qed.

Lemma to_none_none text :
  to_none isspace text = None <-> all_space isspace text = true.
Proof.
  unfold to_none. rewrite <- strip_empty.
  destruct (strip isspace text); cbn [nonempty];
    split; try discriminate; reflexivity.
Qed.

(** X14. [to_none] returns [None] exactly for the texts that have no
    character other than whitespace, the empty text among them; every
    other text is returned as it was given, the whitespace at its ends
    included. *)
Theorem to_none_spec (text : string) :
  (to_none isspace text = None
   <-> forall c, In c (list_ascii_of_string text) -> isspace c = true)
  /\ (forall r, to_none isspace text = Some r -> r = text).
Proof.
  unfold to_none. split.
  - rewrite <- forallb_forall. fold (all_space isspace text).
    rewrite <- strip_empty.
    destruct (strip isspace text); cbn [nonempty];
      split; try discriminate; reflexivity.
  - intros r. destruct (nonempty (strip isspace text)); [| discriminate].
    now intros [= <-].
Qed.

(** X15. [contains_whitespace] and [to_none] together: a text that
    [to_none] drops is empty or contains whitespace, and a text that is
    not empty and contains no whitespace is kept. *)
Theorem to_none_contains_whitespace (text : string) :
  (to_none isspace text = None ->
   text = "" \/ contains_whitespace isspace text = true)
  /\ (text <> "" -> contains_whitespace isspace text = false ->
      to_none isspace text = Some text).
Proof.
  split.
  - intros H%to_none_none. unfold all_space in H.
    destruct text as [| c s]; [now left | right].
    unfold contains_whitespace.
    cbn [list_ascii_of_string existsb forallb] in *.
    apply andb_true_iff in H as [-> _]. reflexivity.
  - intros Hne Hc. unfold to_none.
    destruct (strip isspace text) eqn:E; [| reflexivity].
    apply strip_empty in E. unfold all_space in E.
    destruct text as [| c s]; [contradiction |].
    unfold contains_whitespace in Hc.
    cbn [list_ascii_of_string existsb forallb] in *.
    apply andb_true_iff in E as [E _]. now rewrite E in Hc.
Qed.

End WithIsspace.

End WhitespaceFacts.

Lemma to_none_contains_whitespace_witness :
  Helpers.to_none (fun c => Ascii.eqb c " ") "ab" = Some "ab".
Proof.
  apply (proj2 (WhitespaceFacts.to_none_contains_whitespace
                  (fun c => Ascii.eqb c " ") "ab")).
  - discriminate.
  - reflexivity.
Defined.

Module PrintCliFacts.
Import Helpers.

Section WithWorld.

Variable world : nat -> print_result.

Lemma count_slept_app l l' :
  count_slept (l ++ l') = count_slept l + count_slept l'.
Proof.
  induction l as [| [b |] l IH]; cbn [app count_slept]; [reflexivity | ..];
    rewrite IH; reflexivity.
Qed.

Lemma count_wrote_app l l' :
  count_wrote (l ++ l') = count_wrote l + count_wrote l'.
Proof.
  induction l as [| [b |] l IH]; cbn [app count_wrote]; [reflexivity | ..];
    rewrite IH; reflexivity.
Qed.

Ltac bounds :=
  repeat split;
  try assumption; try reflexivity; try lia;
  try (intros; first [reflexivity | discriminate | auto; lia]).

(** What one round of printing does to the state. *)
Lemma print_msg_effect st :
  let (r, st1) := print_msg world st in
  exists new,
    events st1 = (events st ++ new)%list
    /\ calls st < calls st1 <= calls st + 2
    /\ match r with
       | Printed => exists b, new = [Wrote b]
       | _ => new = []
       end.
Proof.
  unfold print_msg, do_print. cbn [calls events].
  destruct (world (calls st)) as [| | e err | name] eqn:E1.
  - exists [Wrote false]. cbn. split; [reflexivity | split; [lia | eauto]].
  - destruct (world (S (calls st))) as [| | e err | name] eqn:E2; cbn.
    + exists [Wrote true]. split; [reflexivity | split; [lia | eauto]].
    + exists []. rewrite app_nil_r. split; [reflexivity | split; [lia | auto]].
    + exists []. rewrite app_nil_r. split; [reflexivity | split; [lia | auto]].
    + exists []. rewrite app_nil_r. split; [reflexivity | split; [lia | auto]].
  - exists []. cbn. rewrite app_nil_r.
    split; [reflexivity | split; [lia | auto]].
  - exists []. cbn. rewrite app_nil_r.
    split; [reflexivity | split; [lia | auto]].
Qed.

(** X16. Bounds on what [print_cli] does: it sleeps at most [retries]
    times, calls [print] at most twice per round, writes the message at
    most once, and when it has written the message it returns. *)
Theorem print_cli_bounds (retries : nat) :
  forall st r st',
    print_cli world retries st = (r, st') ->
    exists new,
      events st' = (events st ++ new)%list
      /\ count_slept new <= retries
      /\ count_wrote new <= 1
      /\ calls st <= calls st' <= calls st + 2 * retries
      /\ (count_wrote new = 1 -> r = Returns tt).
Proof.
  induction retries as [| n IH]; intros st r st'; cbn [print_cli].
  - intros [= <- <-]. exists []. rewrite app_nil_r. cbn. bounds.
  - pose proof (print_msg_effect st) as Hm.
    destruct (print_msg world st) as [r1 st1].
    destruct Hm as (new1 & He1 & Hc1 & Hr1).
    destruct r1 as [| | e err | name].
    + intros [= <- <-]. destruct Hr1 as [b ->].
      exists [Wrote b]. cbn. bounds.
    + intros [= <- <-]. subst new1. exists []. cbn. bounds.
    + subst new1. rewrite app_nil_r in He1.
      destruct (negb (errno_eqb e EPIPE)).
      * destruct ((contains "temporarily unavailable" err
                   || errno_eqb e EAGAIN) && negb (Nat.eqb (S n) 0)).
        -- intros H. apply IH in H. cbn [events calls] in H.
           destruct H as (new & He & Hs & Hw & Hc & Hr).
           exists (Slept :: new). rewrite He, He1, <- app_assoc.
           cbn. bounds.
        -- intros [= <- <-]. exists []. rewrite app_nil_r. cbn. bounds.
      * intros [= <- <-]. exists []. rewrite app_nil_r. cbn. bounds.
    + intros [= <- <-]. subst new1. exists []. cbn. bounds.
Qed.

(** The outcome of one round, by the calls of [print] it makes. *)
Lemma print_msg_calls st :
  let (r, st1) := print_msg world st in
  exists k,
    calls st1 = S k /\ calls st <= k /\ r = world k
    /\ (r = PrintEncodeError ->
        exists k', k = S k' /\ calls st <= k'
                   /\ world k' = PrintEncodeError).
Proof.
  unfold print_msg, do_print. cbn [calls events].
  destruct (world (calls st)) as [| | e err | name] eqn:E1.
  - exists (calls st). cbn. rewrite E1. repeat split; auto; discriminate.
  - exists (S (calls st)). cbn.
    repeat split; auto. intros _. exists (calls st). auto.
  - exists (calls st). cbn. rewrite E1. repeat split; auto; discriminate.
  - exists (calls st). cbn. rewrite E1. repeat split; auto; discriminate.
Qed.

(** X17. What reaches the caller of [print_cli] is what the last call
    of [print] raised.  When that is an [IOError], it is neither a
    broken pipe nor an [EAGAIN] nor says ["temporarily unavailable"];
    when it is a [UnicodeEncodeError], it is the one of the second
    [print] of the round, the first having raised one too; an exception
    of any other class is not caught. *)
Theorem print_cli_raises (retries : nat) :
  forall st x st',
    print_cli world retries st = (Raises x, st') ->
    exists k,
      calls st' = S k /\ calls st <= k
      /\ match world k with
         | Printed => False
         | PrintEncodeError =>
             x = UnicodeEncodeError
             /\ exists k', k = S k' /\ calls st <= k'
                           /\ world k' = PrintEncodeError
         | PrintIOError e err =>
             x = IOError e err
             /\ e <> EPIPE /\ e <> EAGAIN
             /\ contains "temporarily unavailable" err = false
         | PrintOtherError name => x = OtherException name
         end.
Proof.
  induction retries as [| n IH]; intros st x st'; cbn [print_cli].
  - discriminate.
  - pose proof (print_msg_calls st) as Hm.
    destruct (print_msg world st) as [r st1].
    destruct Hm as (k & Hk & Hle & Hr & Henc).
    destruct r as [| | e err | name].
    + discriminate.
    + intros [= <- <-]. exists k. rewrite <- Hr. auto.
    + destruct (errno_eqb e EPIPE) eqn:Ep; cbn [negb]; [discriminate |].
      assert (Hrec : forall st2,
                 calls st2 = calls st1 ->
                 print_cli world n st2 = (Raises x, st') ->
                 exists k0,
                   calls st' = S k0 /\ calls st <= k0
                   /\ match world k0 with
                      | Printed => False
                      | PrintEncodeError =>
                          x = UnicodeEncodeError
                          /\ exists k', k0 = S k' /\ calls st <= k'
                                        /\ world k' = PrintEncodeError
                      | PrintIOError e0 err0 =>
                          x = IOError e0 err0
                          /\ e0 <> EPIPE /\ e0 <> EAGAIN
                          /\ contains "temporarily unavailable" err0 = false
                      | PrintOtherError name => x = OtherException name
                      end).
      { intros st2 Hc H. apply IH in H as (k0 & H1 & H2 & H3).
        exists k0. rewrite Hc, Hk in H2.
        split; [assumption | split; [lia |]].
        destruct (world k0) as [| | e0 err0 | name]; auto.
        destruct H3 as (Hx & k' & -> & Hk' & Hw).
        split; [assumption |]. exists k'. repeat split; auto. lia. }
      destruct (contains "temporarily unavailable" err) eqn:Ec;
        cbn [orb andb Nat.eqb negb]; [now apply Hrec |].
      destruct (errno_eqb e EAGAIN) eqn:Ea; [now apply Hrec |].
      intros [= <- <-]. exists k. rewrite <- Hr.
      split; [assumption | split; [assumption |]].
      split; [reflexivity |].
      split; [intros ->; discriminate |].
      split; [intros ->; discriminate | exact Ec].
    + intros [= <- <-]. exists k. rewrite <- Hr. auto.
Qed.

(** X18. When every call of [print] fails with an error that is tried
    again, [print_cli] sleeps [retries] times and then returns as if it
    had printed: the message is not written and no error is raised. *)
Theorem print_cli_gives_up_silently (retries : nat) :
  forall st,
    (forall k, calls st <= k ->
               exists e err,
                 world k = PrintIOError e err /\ retryable e err = true) ->
    print_cli world retries st
    = (Returns tt,
       CliState (calls st + retries)
                (events st ++ repeat Slept retries)%list).
Proof.
  induction retries as [| n IH]; intros st Hw; cbn [print_cli].
  - rewrite Nat.add_0_r, app_nil_r. now destruct st.
  - unfold print_msg, do_print.
    destruct (Hw (calls st) (le_n _)) as (e & err & -> & Hr).
    unfold retryable in Hr. apply andb_true_iff in Hr as [-> ->].
    cbn [andb Nat.eqb negb calls events].
    rewrite IH; cbn [calls events].
    + f_equal. f_equal; [lia |].
      rewrite <- app_assoc. reflexivity.
    + intros k Hk. apply Hw. lia.
Qed.

Lemma print_cli_after_failures (k : nat) :
  forall retries st,
    (forall i, i < k ->
               exists e err,
                 world (calls st + i) = PrintIOError e err
                 /\ retryable e err = true) ->
    print_cli world (k + retries) st
    = print_cli world retries
        (CliState (calls st + k) (events st ++ repeat Slept k)%list).
Proof.
  induction k as [| k IH]; intros retries st Hw.
  - cbn [Nat.add repeat]. rewrite Nat.add_0_r, app_nil_r. now destruct st.
  - cbn [Nat.add print_cli]. unfold print_msg, do_print.
    destruct (Hw 0 (Nat.lt_0_succ k)) as (e & err & He & Hr).
    rewrite Nat.add_0_r in He. rewrite He.
    unfold retryable in Hr. apply andb_true_iff in Hr as [-> ->].
    cbn [andb Nat.eqb negb calls events].
    rewrite IH; cbn [calls events].
    + f_equal. f_equal; [lia |].
      rewrite <- app_assoc. reflexivity.
    + intros i Hi. specialize (Hw (S i) (proj1 (Nat.succ_lt_mono i k) Hi)).
      now replace (S (calls st) + i) with (calls st + S i) by lia.
Qed.

(** X19. After [k] failures that are tried again, and with a retry
    left, the next [print] decides: when it succeeds the message has been
    written once, after [k] sleeps; when it fails with a broken pipe the
    call returns all the same, and the message has not been written. *)
Theorem print_cli_after_retries
    (k retries : nat) (st : cli_state) :
  (forall i, i < k ->
             exists e err,
               world (calls st + i) = PrintIOError e err
               /\ retryable e err = true) ->
  (world (calls st + k) = Printed ->
   print_cli world (k + S retries) st
   = (Returns tt,
      CliState (S (calls st + k))
               ((events st ++ repeat Slept k) ++ [Wrote false])%list))
  /\ (forall err,
        world (calls st + k) = PrintIOError EPIPE err ->
        print_cli world (k + S retries) st
        = (Returns tt,
           CliState (S (calls st + k))
                    (events st ++ repeat Slept k)%list)).
Proof.
  intros Hw. split.
  - intros Hk. rewrite print_cli_after_failures by assumption.
    cbn [print_cli]. unfold print_msg, do_print. cbn [calls events].
    now rewrite Hk.
  - intros err Hk. rewrite print_cli_after_failures by assumption.
    cbn [print_cli]. unfold print_msg, do_print. cbn [calls events].
    now rewrite Hk.
Qed.

End WithWorld.

End PrintCliFacts.

Lemma print_cli_bounds_witness :
  exists new,
    [Helpers.Slept; Helpers.Wrote false] = ([] ++ new)%list
    /\ Helpers.count_slept new <= 10
    /\ Helpers.count_wrote new <= 1
    /\ 0 <= 2 <= 0 + 2 * 10
    /\ (Helpers.count_wrote new = 1 -> Helpers.Returns tt = Helpers.Returns tt).
Proof.
  exact (PrintCliFacts.print_cli_bounds
           (fun k => match k with
                     | 0 => Helpers.PrintIOError Helpers.EAGAIN "again"
                     | _ => Helpers.Printed
                     end)
           10 (Helpers.CliState 0 []) (Helpers.Returns tt)
           (Helpers.CliState 2 [Helpers.Slept; Helpers.Wrote false])
           eq_refl).
Defined.

Lemma print_cli_raises_witness :
  exists k,
    2 = S k /\ 0 <= k
    /\ match match k with
             | 0 => Helpers.PrintEncodeError
             | _ => Helpers.PrintOtherError "ValueError"
             end with
       | Helpers.Printed => False
       | Helpers.PrintEncodeError =>
           Helpers.OtherException "ValueError" = Helpers.UnicodeEncodeError
           /\ exists k', k = S k' /\ 0 <= k'
                         /\ match k' with
                            | 0 => Helpers.PrintEncodeError
                            | _ => Helpers.PrintOtherError "ValueError"
                            end = Helpers.PrintEncodeError
       | Helpers.PrintIOError e err =>
           Helpers.OtherException "ValueError" = Helpers.IOError e err
           /\ e <> Helpers.EPIPE /\ e <> Helpers.EAGAIN
           /\ Helpers.contains "temporarily unavailable" err = false
       | Helpers.PrintOtherError name =>
           Helpers.OtherException "ValueError" = Helpers.OtherException name
       end.
Proof.
  exact (PrintCliFacts.print_cli_raises
           (fun k => match k with
                     | 0 => Helpers.PrintEncodeError
                     | _ => Helpers.PrintOtherError "ValueError"
                     end)
           10 (Helpers.CliState 0 [])
           (Helpers.OtherException "ValueError") (Helpers.CliState 2 [])
           eq_refl).
Defined.

Lemma print_cli_gives_up_silently_witness :
  Helpers.print_cli
    (fun _ => Helpers.PrintIOError Helpers.EAGAIN
                "Resource temporarily unavailable")
    3 (Helpers.CliState 0 [])
  = (Helpers.Returns tt,
     Helpers.CliState 3 [Helpers.Slept; Helpers.Slept; Helpers.Slept]).
Proof.
  refine (PrintCliFacts.print_cli_gives_up_silently
            (fun _ => Helpers.PrintIOError Helpers.EAGAIN
                        "Resource temporarily unavailable")
            3 (Helpers.CliState 0 []) _).
  intros k _. eexists _, _. split; reflexivity.
Defined.

Lemma print_cli_after_retries_witness :
  Helpers.print_cli
    (fun k => match k with
              | 0 | 1 => Helpers.PrintIOError Helpers.EAGAIN "again"
              | _ => Helpers.Printed
              end)
    (2 + 8) (Helpers.CliState 0 [])
  = (Helpers.Returns tt,
     Helpers.CliState 3
       [Helpers.Slept; Helpers.Slept; Helpers.Wrote false]).
Proof.
  refine (proj1 (PrintCliFacts.print_cli_after_retries
                   (fun k => match k with
                             | 0 | 1 =>
                                 Helpers.PrintIOError Helpers.EAGAIN "again"
                             | _ => Helpers.Printed
                             end)
                   2 7 (Helpers.CliState 0 []) _) eq_refl).
  intros i Hi. exists Helpers.EAGAIN, "again".
  destruct i as [| [| i]]; [split; reflexivity .. | lia].
Defined.

Module ConversionFacts.
Import Helpers.

Section WithCodecs.

Variable py3 : bool.
Variable system_encoding : string.
Variable encode : string -> list N -> outcome string.
Variable decode : string -> string -> outcome (list N).
Variable decode_replace : string -> string -> outcome (list N).

Local Abbreviation to_str :=
  (to_str py3 system_encoding encode decode_replace).
Local Abbreviation to_bytes :=
  (to_bytes py3 system_encoding encode decode_replace).
Local Abbreviation to_unicode :=
  (to_unicode py3 system_encoding encode decode decode_replace).

(** X20. What [to_str] and [to_bytes] return when they return: [to_str]
    an object of the type [str] of the interpreter, [to_bytes] a byte
    string; and each of them gives its own result back unchanged,
    whatever the encoding. *)
Theorem to_str_to_bytes_results (s r : obj) (encoding : option string) :
  (to_str s encoding = Returns r ->
   is_native_str py3 r = true
   /\ forall encoding', to_str r encoding' = Returns r)
  /\ (to_bytes s encoding = Returns r ->
      is_bytes r = true
      /\ forall encoding', to_bytes r encoding' = Returns r).
Proof.
  unfold Helpers.to_bytes, Helpers.to_str, is_native_str.
  split; destruct py3, s as [t | b | b | v]; cbn;
    repeat match goal with
      | |- context [encode ?e ?t] => destruct (encode e t); cbn
      | |- context [decode_replace ?e ?b] => destruct (decode_replace e b); cbn
      end;
    try discriminate; intros [= <-]; split; reflexivity.
Qed.

(** X21. [to_unicode] gives its own result back unchanged.  On
    Python 3 a byte string and a [bytearray] become a text; on Python 2 a
    [bytearray] is returned as it is, not decoded. *)
Theorem to_unicode_results (s r : obj) (encoding : option string) :
  (to_unicode s encoding = Returns r ->
   forall encoding', to_unicode r encoding' = Returns r)
  /\ (py3 = true -> to_unicode s encoding = Returns r ->
      (exists b, s = Bytes b \/ s = ByteArray b) -> exists t, r = Text t)
  /\ (py3 = false ->
      forall b, to_unicode (ByteArray b) encoding = Returns (ByteArray b)).
Proof.
  unfold Helpers.to_unicode, Helpers.to_str.
  split; [| split].
  - destruct py3, s as [t | b | b | v]; cbn;
      repeat match goal with
        | |- context [decode ?e ?b] => destruct (decode e b); cbn
        | |- context [decode_replace ?e ?b] =>
            destruct (decode_replace e b); cbn
        end;
      try discriminate; intros [= <-]; reflexivity.
  - intros ->. destruct s as [t | b | b | v]; cbn;
      repeat match goal with
        | |- context [decode_replace ?e ?b] =>
            destruct (decode_replace e b); cbn
        end;
      try discriminate; intros [= <-] [b' [Hb | Hb]];
      try discriminate; eauto.
  - intros ->. reflexivity.
Qed.

End WithCodecs.

End ConversionFacts.

Lemma to_str_to_bytes_results_witness :
  Helpers.is_native_str true (Helpers.Text [97; 98]%N) = true
  /\ forall encoding',
       Helpers.to_str true "utf-8" latin1_encode latin1_decode
         (Helpers.Text [97; 98]%N) encoding'
       = Helpers.Returns (Helpers.Text [97; 98]%N).
Proof.
  exact (proj1 (ConversionFacts.to_str_to_bytes_results
                  true "utf-8" latin1_encode latin1_decode
                  (Helpers.Bytes "ab") (Helpers.Text [97; 98]%N) None)
           eq_refl).
Defined.

Lemma to_unicode_results_witness :
  Helpers.to_unicode false "utf-8" latin1_encode latin1_decode latin1_decode
    (Helpers.Text [97; 98]%N) (Some "latin-1")
  = Helpers.Returns (Helpers.Text [97; 98]%N).
Proof.
  exact (proj1 (ConversionFacts.to_unicode_results
                  false "utf-8" latin1_encode latin1_decode latin1_decode
                  (Helpers.Bytes "ab") (Helpers.Text [97; 98]%N) None)
           eq_refl (Some "latin-1")).
Defined.

Lemma pattern_set_decision_witness :
  check_whitelist_blacklist (L := ref_lib)
    "minion01" (pattern_set (Some ["minion*"]))
    (pattern_set (Some ["web*"; "db[0-9]"])) []
  = (Ok true, []).
Proof.
  refine (pattern_set_decision (L := ref_lib)
            "minion01" (Some ["minion*"]) (Some ["web*"; "db[0-9]"])
            [] _ _);
    intros p Hp; cbn [patterns_of In] in Hp;
    repeat destruct Hp as [<- | Hp]; try contradiction;
    eexists; vm_compute; reflexivity.
Defined.


(** The superscript two is a digit for [isdigit] and none for [int]:
    [human_to_bytes] raises [ValueError] on it followed by [M]. *)
Lemma human_to_bytes_outcome_witness :
  (exists k, (0 <= k)%Z
             /\ Helpers.human_to_bytes_on 4300 "30M"
                = Helpers.Returns (k * 1048576)%Z)
  /\ Helpers.human_to_bytes_on 4300 (String "178" "M")
     = Helpers.Raises Helpers.ValueError.
Proof.
  split.
  - destruct (proj1 (proj2 (HelpersFacts.human_to_bytes_outcome 4300 "30M")))
      as [H | H]; [discriminate | discriminate H | exact H].
  - apply (proj2 (proj2 (HelpersFacts.human_to_bytes_outcome
                           4300 (String "178" "M")))).
    split; [reflexivity | left; reflexivity].
Defined.

Lemma human_to_bytes_zero_witness :
  Helpers.human_to_bytes_on 4300 "1.5G" = Helpers.Returns 0%Z
  /\ Helpers.human_to_bytes_on 4300 "1024" = Helpers.Returns 0%Z.
Proof.
  split.
  - exact (proj1 (HelpersFacts.human_to_bytes_zero 4300)
             "1.5" "G"%char eq_refl).
  - exact (proj2 (HelpersFacts.human_to_bytes_zero 4300)
             "1024" eq_refl eq_refl).
Defined.

Lemma to_none_spec_witness :
  Helpers.to_none (fun c => Ascii.eqb c " ") "   " = None.
Proof.
  apply (proj2 (proj1 (WhitespaceFacts.to_none_spec
                         (fun c => Ascii.eqb c " ") "   "))).
  intros c [<- | [<- | [<- | []]]]; reflexivity.
Defined.
